(** * Prisoners: the light-bulb riddle simulator (src/main.cpp)

    A shallow embedding of the scheduler [Prison<Prisoner>] and of the two
    strategies [DedicatedCounterPrisoner] and [TokenPrisoner], followed by
    the properties of the specification that were checked against them.

    Conventions of the embedding.
    - [int32_t] values are integers of [Z]; every arithmetic operation of
      the source goes through [Int32], which writes the two's complement
      wrap-around out.  Division and remainder are partial: a zero divisor
      (and [INT32_MIN / -1]) is undefined behaviour in C++ and is [None]
      here.
    - A member function that mutates [*this] or the [Light] behind the
      pointer of [PrisonerInput] returns the new prisoner and the new light.
    - The pseudo random generator is not part of the model: the agent drawn
      by [distribution_] on each day is an argument of [NextDay], and [Run]
      consumes a list of draws, one per day. *)

From Stdlib Require Import ZArith Lia Bool.
From stdpp Require Import base numbers option list.

Local Open Scope Z_scope.

(** ** 32-bit signed arithmetic *)

Module Int32.

Definition min_signed : Z := - 2 ^ 31.
Definition max_signed : Z := 2 ^ 31 - 1.

Definition in_range (z : Z) : Prop := min_signed <= z <= max_signed.

(** Reduction of an integer to its signed 32-bit representative. *)
Definition wrap (z : Z) : Z := (z + 2 ^ 31) mod 2 ^ 32 - 2 ^ 31.

Definition add (a b : Z) : Z := wrap (a + b).
Definition sub (a b : Z) : Z := wrap (a - b).
Definition mul (a b : Z) : Z := wrap (a * b).

(** [1 << s]: the mathematical shift, reduced to 32 bits. *)
Definition shl (a s : Z) : Z := wrap (Z.shiftl a s).

(** Bitwise and of two's complement integers. *)
Definition and (a b : Z) : Z := Z.land a b.

Definition undefined_quotient (a b : Z) : bool :=
  (b =? 0) || ((a =? min_signed) && (b =? -1)).

(** C++ [/] truncates towards zero. *)
Definition div (a b : Z) : option Z :=
  if undefined_quotient a b then None else Some (Z.quot a b).

(** C++ [%] takes the sign of the dividend. *)
Definition rem (a b : Z) : option Z :=
  if undefined_quotient a b then None else Some (Z.rem a b).

End Int32.

(** ** class Light *)

Record Light : Type := mkLight { is_on : bool }.

Definition IsOn (l : Light) : bool := is_on l.
Definition IsOff (l : Light) : bool := negb (IsOn l).
Definition TurnOn (l : Light) : Light := {| is_on := true |}.
Definition TurnOff (l : Light) : Light := {| is_on := false |}.

(** ** struct PrisonerInput, enum PrisonerClaim *)

Record PrisonerInput : Type := mkInput { day_number : Z; light : Light }.

Inductive PrisonerClaim : Type :=
| claim_nothing
| claim_that_everyone_has_been_in_the_room.

Global Instance PrisonerClaim_eq_dec : EqDecision PrisonerClaim.
Proof. solve_decision. Defined.

(** ** class PrisonerBase

    The interface the scheduler is instantiated with: a constructor from
    [(prisoner_id, n_prisoners)] and the virtual [TakeAction].  [TakeAction]
    returns the claim, the prisoner after the visit and the light after the
    visit; [None] when the visit runs into undefined behaviour. *)

Class PrisonerBase (P : Type) : Type := {
  construct : Z -> Z -> P;
  TakeAction : P -> PrisonerInput -> option (PrisonerClaim * P * Light)
}.

(** ** class DedicatedCounterPrisoner *)

Module DedicatedCounterPrisoner.

Record t : Type := mk {
  prisoner_id : Z;
  n_prisoners : Z;
  has_turned_on_the_light : bool;
  times_turned_off_the_light : Z
}.

Definition make (prisoner_id n_prisoners : Z) : t :=
  {| prisoner_id := prisoner_id;
     n_prisoners := n_prisoners;
     has_turned_on_the_light := false;
     times_turned_off_the_light := 0 |}.

Definition set_times (p : t) (v : Z) : t :=
  {| prisoner_id := prisoner_id p;
     n_prisoners := n_prisoners p;
     has_turned_on_the_light := has_turned_on_the_light p;
     times_turned_off_the_light := v |}.

Definition set_has_turned_on (p : t) (b : bool) : t :=
  {| prisoner_id := prisoner_id p;
     n_prisoners := n_prisoners p;
     has_turned_on_the_light := b;
     times_turned_off_the_light := times_turned_off_the_light p |}.

Definition TakeAction (p : t) (input : PrisonerInput)
  : PrisonerClaim * t * Light :=
  if prisoner_id p =? 0 then
    let '(p1, l1) :=
      if IsOn (light input)
      then (set_times p (Int32.add (times_turned_off_the_light p) 1),
            TurnOff (light input))
      else (p, light input) in
    if times_turned_off_the_light p1 =? Int32.sub (n_prisoners p1) 1
    then (claim_that_everyone_has_been_in_the_room, p1, l1)
    else (claim_nothing, p1, l1)
  else
    if negb (has_turned_on_the_light p) && IsOff (light input)
    then (claim_nothing, set_has_turned_on p true, TurnOn (light input))
    else (claim_nothing, p, light input).

End DedicatedCounterPrisoner.

Global Instance DedicatedCounterPrisoner_base
  : PrisonerBase DedicatedCounterPrisoner.t := {
  construct := DedicatedCounterPrisoner.make;
  TakeAction := fun p input => Some (DedicatedCounterPrisoner.TakeAction p input)
}.

(** ** class TokenPrisoner *)

Module TokenPrisoner.

Record t : Type := mk {
  prisoner_id : Z;
  n_prisoners : Z;
  n_tokens : Z
}.

(** [std::ceil(log2(number))].  For [1 <= number < 2^31] the conversion to
    [double] is exact and the rounded logarithm has the exact ceiling, so
    the result is the integer [Z.log2_up number]; the claims only use
    positive arguments. *)
Definition GetClosestNotSmallerPowerOf2 (number : Z) : Z := Z.log2_up number.

Definition make (prisoner_id n_prisoners : Z) : t :=
  let n_prisoners_with_2_tokens :=
    Int32.sub (Int32.shl 1 (GetClosestNotSmallerPowerOf2 n_prisoners))
              n_prisoners in
  {| prisoner_id := prisoner_id;
     n_prisoners := n_prisoners;
     n_tokens := if prisoner_id <? n_prisoners_with_2_tokens then 2 else 1 |}.

Definition set_tokens (p : t) (v : Z) : t :=
  {| prisoner_id := prisoner_id p;
     n_prisoners := n_prisoners p;
     n_tokens := v |}.

Definition GetStageIndex (p : t) (day_number : Z) : option Z :=
  let first_cycle_interval := Int32.mul (n_prisoners p) 7 in
  let next_cycles_interval := Int32.mul (n_prisoners p) 3 in
  let n_stages := GetClosestNotSmallerPowerOf2 (n_prisoners p) in
  if day_number <? Int32.mul n_stages first_cycle_interval then
    Int32.div day_number first_cycle_interval
  else
    let tail := Int32.sub day_number (Int32.mul n_stages first_cycle_interval) in
    q ← Int32.div tail next_cycles_interval;
    Int32.rem q n_stages.

Definition IsLastDayOfTheStage (p : t) (day_number : Z) : option bool :=
  today ← GetStageIndex p day_number;
  tomorrow ← GetStageIndex p (Int32.add day_number 1);
  Some (negb (today =? tomorrow)).

Definition MaybeTurnOffLight (p : t) (input : PrisonerInput)
  : option (t * Light) :=
  if IsOff (light input) then Some (p, light input)
  else
    stage_index ← GetStageIndex p (day_number input);
    let exchange_rate := Int32.shl 1 stage_index in
    let have_matching_bit :=
      negb (Int32.and (n_tokens p) exchange_rate =? 0) in
    last ← IsLastDayOfTheStage p (day_number input);
    if last || have_matching_bit
    then Some (set_tokens p (Int32.add (n_tokens p) exchange_rate),
               TurnOff (light input))
    else Some (p, light input).

Definition MaybeTurnOnLight (p : t) (input : PrisonerInput)
  : option (t * Light) :=
  if IsOn (light input) then Some (p, light input)
  else
    next_day_stage_index ← GetStageIndex p (Int32.add (day_number input) 1);
    let next_day_exchange_rate := Int32.shl 1 next_day_stage_index in
    let have_matching_bit := Int32.and (n_tokens p) next_day_exchange_rate in
    if negb (have_matching_bit =? 0)
    then Some (set_tokens p (Int32.sub (n_tokens p) next_day_exchange_rate),
               TurnOn (light input))
    else Some (p, light input).

Definition ShouldClaimThatEveryoneHasBeenInTheRoom (p : t) : bool :=
  n_tokens p =? Int32.shl 1 (GetClosestNotSmallerPowerOf2 (n_prisoners p)).

(** The two helpers receive the same [PrisonerInput] by value; the light
    is shared through its pointer, so the second helper sees what the
    first one did to it. *)
Definition TakeAction (p : t) (input : PrisonerInput)
  : option (PrisonerClaim * t * Light) :=
  '(p1, l1) ← MaybeTurnOffLight p input;
  '(p2, l2) ← MaybeTurnOnLight p1 (mkInput (day_number input) l1);
  if ShouldClaimThatEveryoneHasBeenInTheRoom p2
  then Some (claim_that_everyone_has_been_in_the_room, p2, l2)
  else Some (claim_nothing, p2, l2).

End TokenPrisoner.

Global Instance TokenPrisoner_base : PrisonerBase TokenPrisoner.t := {
  construct := TokenPrisoner.make;
  TakeAction := TokenPrisoner.TakeAction
}.

(** ** template <class Prisoner> class Prison *)

(** How a call of [Run] ends.  [StillRunning] is not an outcome of the
    source: it marks that the supplied draws were used up before any claim
    was made, the loop being unbounded. *)
Inductive Outcome : Type :=
| Returned (day : Z)
| FalsePrisonerClaimException
| UndefinedBehaviour
| StillRunning.

Module Prison.
Section WithPrisoner.
Context {P : Type} `{PrisonerBase P}.

Record t : Type := mk {
  n_prisoners : Z;
  day_number : Z;
  light : Light;
  prisoners : list P;
  prisoners_have_been_in_the_room_indicators : list bool
  }.

(** The constructor: [n_prisoners] indicators, all false, and the
    prisoners [0 .. n_prisoners - 1] appended in order. *)
Definition make (n_prisoners : Z) : t :=
  {| n_prisoners := n_prisoners;
     day_number := 0;
     light := {| is_on := false |};
     prisoners := (fun i => construct i n_prisoners) <$> seqZ 0 n_prisoners;
     prisoners_have_been_in_the_room_indicators :=
       replicate (Z.to_nat n_prisoners) false |}.

Definition HaveAllPrisonersBeenInTheRoom (s : t) : bool :=
  forallb (fun x => x) (prisoners_have_been_in_the_room_indicators s).

(** One day.  [prisoner_id] is the value drawn by [distribution_]; an
    index outside the vectors is undefined behaviour. *)
Definition NextDay (prisoner_id : Z) (s : t) : option (PrisonerClaim * t) :=
  if prisoner_id <? 0 then None
  else
    let i := Z.to_nat prisoner_id in
    _ ← prisoners_have_been_in_the_room_indicators s !! i;
    let indicators :=
      <[i := true]> (prisoners_have_been_in_the_room_indicators s) in
    prisoner ← prisoners s !! i;
    '(prisoner_claim, prisoner', light') ←
      TakeAction prisoner (mkInput (day_number s) (light s));
    Some (prisoner_claim,
          {| n_prisoners := n_prisoners s;
             day_number := Int32.add (day_number s) 1;
             light := light';
             prisoners := <[i := prisoner']> (prisoners s);
             prisoners_have_been_in_the_room_indicators := indicators |}).

(** The loop of [Run], one iteration per draw. *)
Fixpoint Run (draws : list Z) (s : t) : Outcome :=
  match draws with
  | [] => StillRunning
  | prisoner_id :: draws' =>
      match NextDay prisoner_id s with
      | None => UndefinedBehaviour
      | Some (prisoner_claim, s') =>
          if decide (prisoner_claim = claim_that_everyone_has_been_in_the_room)
          then if HaveAllPrisonersBeenInTheRoom s'
               then Returned (day_number s')
               else FalsePrisonerClaimException
          else Run draws' s'
      end
  end.

End WithPrisoner.
Arguments t P : clear implicits.
End Prison.

(** ** template <class Prisoner> void Test()

    The loop runs a fresh prison for every [n_prisoners] from 1 to 100 and
    drops the day counts; an exception of [Run] leaves the loop.  Each run
    consumes its own stretch of the generator: [draws_of n_prisoners] is
    the stretch of the run with [n_prisoners] prisoners.  The result is the
    first run that does not return, with how it ended, and [None] when
    every run returns. *)

Fixpoint Test_loop {P : Type} `{PrisonerBase P}
    (draws_of : Z -> list Z) (sizes : list Z) : option (Z * Outcome) :=
  match sizes with
  | [] => None
  | n_prisoners :: sizes' =>
      match Prison.Run (draws_of n_prisoners) (Prison.make (P:=P) n_prisoners) with
      | Returned _ => Test_loop draws_of sizes'
      | outcome => Some (n_prisoners, outcome)
      end
  end.

Definition Test {P : Type} `{PrisonerBase P} (draws_of : Z -> list Z)
  : option (Z * Outcome) :=
  Test_loop (P:=P) draws_of (seqZ 1 100).

(** ** Vocabulary of the properties

    Notions that the source does not name but that the properties below
    speak about: executions of the scheduler over a sequence of draws, the
    token mass, the stage schedule as the specification words it, and the
    number of times a flag is raised along a history. *)

Module Execution.
Section WithPrisoner.
Context {P : Type} `{PrisonerBase P}.

(** The state after the visits of [draws], when every one of them is
    defined and claims nothing: the states in which [Run] is still
    looping. *)
Fixpoint Quiet (draws : list Z) (s : Prison.t P) : option (Prison.t P) :=
  match draws with
  | [] => Some s
  | prisoner_id :: draws' =>
      match Prison.NextDay prisoner_id s with
      | Some (claim_nothing, s') => Quiet draws' s'
      | _ => None
      end
  end.

(** The successive states of the prison along [draws], whatever is
    claimed, up to the first undefined visit. *)
Fixpoint trace (draws : list Z) (s : Prison.t P) : list (Prison.t P) :=
  s :: match draws with
       | [] => []
       | prisoner_id :: draws' =>
           match Prison.NextDay prisoner_id s with
           | Some (_, s') => trace draws' s'
           | None => []
           end
       end.

(** The state after the visits of [draws], whatever is claimed; [None]
    when one of the visits is undefined. *)
Fixpoint after (draws : list Z) (s : Prison.t P) : option (Prison.t P) :=
  match draws with
  | [] => Some s
  | prisoner_id :: draws' =>
      match Prison.NextDay prisoner_id s with
      | Some (_, s') => after draws' s'
      | None => None
      end
  end.

End WithPrisoner.
End Execution.

(** Sum of an integer measure over a vector. *)
Definition sumZ {A : Type} (f : A -> Z) (l : list A) : Z :=
  foldr (fun a acc => f a + acc) 0 l.

(** Number of places where a history of a boolean goes from false to true. *)
Fixpoint rises (history : list bool) : nat :=
  match history with
  | false :: (true :: _) as rest => S (rises rest)
  | _ :: rest => rises rest
  | [] => 0%nat
  end.

Module CounterSpec.

(** The leader, agent 0, when the prison has one. *)
Definition leader (s : Prison.t DedicatedCounterPrisoner.t)
  : option DedicatedCounterPrisoner.t := Prison.prisoners s !! 0%nat.

(** Whether agent [i] has signaled. *)
Definition has_signaled (i : nat) (s : Prison.t DedicatedCounterPrisoner.t)
  : bool :=
  match Prison.prisoners s !! i with
  | Some p => DedicatedCounterPrisoner.has_turned_on_the_light p
  | None => false
  end.

Definition flag (p : DedicatedCounterPrisoner.t) : Z :=
  if DedicatedCounterPrisoner.has_turned_on_the_light p then 1 else 0.

Definition pending (l : Light) : Z := if is_on l then 1 else 0.

(** The invariant of a dedicated-counter prison of [n] prisoners: every
    prisoner knows its index and [n]; the leader never signals; the
    signals raised so far are those the leader has counted plus the one
    that may be waiting on the light. *)
Definition CounterInv (n : Z) (s : Prison.t DedicatedCounterPrisoner.t) : Prop :=
  length (Prison.prisoners s) = Z.to_nat n /\
  length (Prison.prisoners_have_been_in_the_room_indicators s) = Z.to_nat n /\
  (forall i p, Prison.prisoners s !! i = Some p ->
     DedicatedCounterPrisoner.prisoner_id p = Z.of_nat i /\
     DedicatedCounterPrisoner.n_prisoners p = n) /\
  exists l, leader s = Some l /\
    DedicatedCounterPrisoner.has_turned_on_the_light l = false /\
    DedicatedCounterPrisoner.times_turned_off_the_light l
      + pending (Prison.light s)
    = sumZ flag (Prison.prisoners s).

(** Whoever has signaled has been in the room. *)
Definition CounterSafe (s : Prison.t DedicatedCounterPrisoner.t) : Prop :=
  forall i p,
    Prison.prisoners s !! i = Some p ->
    DedicatedCounterPrisoner.has_turned_on_the_light p = true ->
    Prison.prisoners_have_been_in_the_room_indicators s !! i = Some true.

(** Every signal raised and every signal counted has cost a day. *)
Definition CounterCost (s : Prison.t DedicatedCounterPrisoner.t) : Prop :=
  exists l, leader s = Some l /\
    DedicatedCounterPrisoner.times_turned_off_the_light l
      + sumZ flag (Prison.prisoners s)
    <= Prison.day_number s.

(** The invariants of a run, indexed by the number of days gone by. *)
Definition CounterRunInv (n : Z) (m : nat)
    (s : Prison.t DedicatedCounterPrisoner.t) : Prop :=
  CounterInv n s /\ CounterSafe s /\
  (Z.of_nat m <= Int32.max_signed ->
   Prison.day_number s = Z.of_nat m /\ CounterCost s).

(** The shortest schedule: prisoners [j + 1], [j + 2], ... signal in turn
    and the leader comes in after each of them, for [rounds] rounds. *)
Fixpoint relay (j : Z) (rounds : nat) : list Z :=
  match rounds with
  | O => []
  | S rounds' => (j + 1) :: 0 :: relay (j + 1) rounds'
  end.

(** The prison between two rounds of the relay: the leader has counted
    [j] signals, the light is off, and the prisoners after [j] are as they
    were built. *)
Definition Relayed (n j : Z) (s : Prison.t DedicatedCounterPrisoner.t)
  : Prop :=
  Prison.day_number s = 2 * j /\
  is_on (Prison.light s) = false /\
  (exists l, leader s = Some l /\
     DedicatedCounterPrisoner.times_turned_off_the_light l = j) /\
  (forall i, j < i < n ->
     Prison.prisoners s !! Z.to_nat i = Some (DedicatedCounterPrisoner.make i n)).

End CounterSpec.

Module TokenSpec.

(** [k = ceil(log2(N))]. *)
Definition k (N : Z) : Z := Z.log2_up N.

(** The stage schedule in the words of the specification, over the
    mathematical integers (floor division and modulo). *)
Definition stage (N day : Z) : Z :=
  if day <? k N * 7 * N then day / (7 * N)
  else ((day - k N * 7 * N) / (3 * N)) mod k N.

Definition last_day_of_stage (N day : Z) : bool :=
  negb (stage N day =? stage N (day + 1)).

(** Sum of all agents' token counts. *)
Definition total_tokens (s : Prison.t TokenPrisoner.t) : Z :=
  sumZ TokenPrisoner.n_tokens (Prison.prisoners s).

(** Weight of the token that is on the light: none when the light is
    off, one unit of the stage of the coming day when it is on. *)
Definition offered (N day : Z) (l : Light) : Z :=
  if is_on l then 2 ^ stage N day else 0.

(** The numeric assumption of the protocol: the products of
    [GetStageIndex] fit in 32 bits. *)
Definition small (N : Z) : Prop := k N * 7 * N <= Int32.max_signed.

(** The per-visit action in the words of the specification. *)
Definition maybe_turn_off (N day tokens : Z) (signal : bool) : Z * bool :=
  if signal then
    let rate := 2 ^ stage N day in
    if negb (Z.land tokens rate =? 0) || last_day_of_stage N day
    then (tokens + rate, false)
    else (tokens, signal)
  else (tokens, signal).

Definition maybe_turn_on (N day tokens : Z) (signal : bool) : Z * bool :=
  if signal then (tokens, signal)
  else
    let next_rate := 2 ^ stage N (day + 1) in
    if negb (Z.land tokens next_rate =? 0)
    then (tokens - next_rate, true)
    else (tokens, signal).

Definition visit (N day tokens : Z) (signal : bool)
  : PrisonerClaim * Z * bool :=
  let '(tokens1, signal1) := maybe_turn_off N day tokens signal in
  let '(tokens2, signal2) := maybe_turn_on N day tokens1 signal1 in
  (if tokens2 =? 2 ^ k N
   then claim_that_everyone_has_been_in_the_room else claim_nothing,
   tokens2, signal2).

(** The invariant of a token prison: every prisoner knows [N] and holds
    a non-negative count, and the counts together with the weight on
    the light make [2^k]. *)
Definition TokenInv (N : Z) (s : Prison.t TokenPrisoner.t) : Prop :=
  length (Prison.prisoners s) = Z.to_nat N /\
  length (Prison.prisoners_have_been_in_the_room_indicators s)
    = Z.to_nat N /\
  Forall (fun p => TokenPrisoner.n_prisoners p = N /\
                   0 <= TokenPrisoner.n_tokens p)
         (Prison.prisoners s) /\
  total_tokens s + offered N (Prison.day_number s) (Prison.light s)
    = 2 ^ k N.

(** The invariant, indexed by the number of days gone by. *)
Definition TokenInvAt (N : Z) (m : nat) (s : Prison.t TokenPrisoner.t) : Prop :=
  Z.of_nat m <= Int32.max_signed ->
  Prison.day_number s = Z.of_nat m /\ TokenInv N s.

(** The days on which a block of the schedule starts: the multiples of
    [7*N] in the first cycle, then every [3*N] days. *)
Definition block_start (N day : Z) : bool :=
  if day <? k N * 7 * N then day mod (7 * N) =? 0
  else (day - k N * 7 * N) mod (3 * N) =? 0.

(** Whoever has not been in the room yet still holds a token. *)
Definition TokenFresh (s : Prison.t TokenPrisoner.t) : Prop :=
  forall i p,
    Prison.prisoners s !! i = Some p ->
    Prison.prisoners_have_been_in_the_room_indicators s !! i = Some false ->
    1 <= TokenPrisoner.n_tokens p.

(** The invariants of a run, indexed by the number of days gone by. *)
Definition TokenRunInv (N : Z) (m : nat) (s : Prison.t TokenPrisoner.t)
  : Prop :=
  Z.of_nat m <= Int32.max_signed ->
  Prison.day_number s = Z.of_nat m /\ TokenInv N s /\ TokenFresh s.

End TokenSpec.

(** * Properties *)

(** ** 32-bit arithmetic *)

Lemma wrap_small (z : Z) : Int32.in_range z -> Int32.wrap z = z.
Proof.
  unfold Int32.in_range, Int32.wrap, Int32.min_signed, Int32.max_signed.
  intros Hz. rewrite Z.mod_small; lia.
Qed.

Lemma wrap_in_range (z : Z) : Int32.in_range (Int32.wrap z).
Proof.
  unfold Int32.in_range, Int32.wrap, Int32.min_signed, Int32.max_signed.
  pose proof (Z.mod_pos_bound (z + 2 ^ 31) (2 ^ 32) ltac:(lia)). lia.
Qed.

Lemma add_small (a b : Z) : Int32.in_range (a + b) -> Int32.add a b = a + b.
Proof. apply wrap_small. Qed.

Lemma sub_small (a b : Z) : Int32.in_range (a - b) -> Int32.sub a b = a - b.
Proof. apply wrap_small. Qed.

Lemma mul_small (a b : Z) : Int32.in_range (a * b) -> Int32.mul a b = a * b.
Proof. apply wrap_small. Qed.

Lemma shl_one_small (s : Z) : 0 <= s <= 30 -> Int32.shl 1 s = 2 ^ s.
Proof.
  intros Hs. unfold Int32.shl. rewrite Z.shiftl_1_l. apply wrap_small.
  unfold Int32.in_range, Int32.min_signed, Int32.max_signed.
  assert (0 < 2 ^ s) by (apply Z.pow_pos_nonneg; lia).
  assert (2 ^ s <= 2 ^ 30) by (apply Z.pow_le_mono_r; lia).
  lia.
Qed.

Lemma div_defined (a b : Z) :
  0 < b -> Int32.div a b = Some (Z.quot a b).
Proof.
  intros Hb. unfold Int32.div, Int32.undefined_quotient.
  destruct (Z.eqb_spec b 0); [lia|].
  destruct (Z.eqb_spec b (-1)); [lia|].
  by rewrite andb_false_r.
Qed.

Lemma rem_defined (a b : Z) :
  0 < b -> Int32.rem a b = Some (Z.rem a b).
Proof.
  intros Hb. unfold Int32.rem, Int32.undefined_quotient.
  destruct (Z.eqb_spec b 0); [lia|].
  destruct (Z.eqb_spec b (-1)); [lia|].
  by rewrite andb_false_r.
Qed.

(** ** The scheduler, for any strategy *)

Section Scheduler.
Context {P : Type} `{PrisonerBase P}.
Implicit Types (s : Prison.t P) (draws : list Z).

Lemma HaveAll_true s :
  Prison.HaveAllPrisonersBeenInTheRoom s = true <->
  forall i b,
    Prison.prisoners_have_been_in_the_room_indicators s !! i = Some b ->
    b = true.
Proof.
  unfold Prison.HaveAllPrisonersBeenInTheRoom.
  induction (Prison.prisoners_have_been_in_the_room_indicators s)
    as [|x l IH]; simpl.
  - split; [intros _ i b Hi; by destruct i | done].
  - rewrite andb_true_iff, IH. split.
    + intros [-> Hl] [|i] b Hi; simpl in Hi; [congruence | eauto].
    + intros Hall. split; [apply (Hall 0%nat); done |].
      intros i b Hi. apply (Hall (S i)). done.
Qed.

Lemma HaveAll_false s :
  Prison.HaveAllPrisonersBeenInTheRoom s = false <->
  exists i,
    Prison.prisoners_have_been_in_the_room_indicators s !! i = Some false.
Proof.
  unfold Prison.HaveAllPrisonersBeenInTheRoom.
  induction (Prison.prisoners_have_been_in_the_room_indicators s)
    as [|x l IH]; simpl.
  - split; [done | intros [i Hi]; by destruct i].
  - rewrite andb_false_iff, IH. split.
    + intros [-> | [i Hi]]; [by exists 0%nat | by exists (S i)].
    + intros [[|i] Hi]; simpl in Hi; [left; congruence | right; eauto].
Qed.

Lemma NextDay_unfold s prisoner_id prisoner :
  0 <= prisoner_id ->
  (Z.to_nat prisoner_id
     < length (Prison.prisoners_have_been_in_the_room_indicators s))%nat ->
  Prison.prisoners s !! Z.to_nat prisoner_id = Some prisoner ->
  Prison.NextDay prisoner_id s =
    match TakeAction prisoner
            (mkInput (Prison.day_number s) (Prison.light s)) with
    | Some (prisoner_claim, prisoner', light') =>
        Some (prisoner_claim,
              {| Prison.n_prisoners := Prison.n_prisoners s;
                 Prison.day_number := Int32.add (Prison.day_number s) 1;
                 Prison.light := light';
                 Prison.prisoners :=
                   <[Z.to_nat prisoner_id := prisoner']> (Prison.prisoners s);
                 Prison.prisoners_have_been_in_the_room_indicators :=
                   <[Z.to_nat prisoner_id := true]>
                     (Prison.prisoners_have_been_in_the_room_indicators s) |})
    | None => None
    end.
Proof.
  intros Hid Hlen Hp. unfold Prison.NextDay.
  destruct (Z.ltb_spec prisoner_id 0); [lia|].
  apply lookup_lt_is_Some_2 in Hlen as [b Hb].
  rewrite Hb, Hp. simpl.
  by destruct (TakeAction prisoner _) as [[[c p'] l']|].
Qed.

Lemma Quiet_app draws1 draws2 s :
  Execution.Quiet (draws1 ++ draws2) s =
  Execution.Quiet draws1 s ≫= Execution.Quiet draws2.
Proof.
  revert s. induction draws1 as [|d draws1 IH]; intros s; simpl; [done|].
  destruct (Prison.NextDay d s) as [[[] s']|]; auto.
Qed.

(** The outcomes of [Run], each traced back to the visit that produces
    the first claim. *)
Lemma Run_cases draws s :
  match Prison.Run draws s with
  | StillRunning => is_Some (Execution.Quiet draws s)
  | UndefinedBehaviour =>
      exists pre prisoner_id rest s1,
        draws = pre ++ prisoner_id :: rest /\
        Execution.Quiet pre s = Some s1 /\
        Prison.NextDay prisoner_id s1 = None
  | Returned r =>
      exists pre prisoner_id rest s1 s2,
        draws = pre ++ prisoner_id :: rest /\
        Execution.Quiet pre s = Some s1 /\
        Prison.NextDay prisoner_id s1
          = Some (claim_that_everyone_has_been_in_the_room, s2) /\
        Prison.HaveAllPrisonersBeenInTheRoom s2 = true /\
        r = Prison.day_number s2
  | FalsePrisonerClaimException =>
      exists pre prisoner_id rest s1 s2,
        draws = pre ++ prisoner_id :: rest /\
        Execution.Quiet pre s = Some s1 /\
        Prison.NextDay prisoner_id s1
          = Some (claim_that_everyone_has_been_in_the_room, s2) /\
        Prison.HaveAllPrisonersBeenInTheRoom s2 = false
  end.
Proof.
  revert s. induction draws as [|d draws IH]; intros s; simpl; [by eexists|].
  destruct (Prison.NextDay d s) as [[c s']|] eqn:Hstep.
  - destruct c; simpl.
    + specialize (IH s').
      destruct (Prison.Run draws s') as [r| | |].
      * destruct IH as (pre & i & rest & s1 & s2 & -> & Hq & Hrest).
        exists (d :: pre), i, rest, s1, s2. simpl. by rewrite Hstep.
      * destruct IH as (pre & i & rest & s1 & s2 & -> & Hq & Hrest).
        exists (d :: pre), i, rest, s1, s2. simpl. by rewrite Hstep.
      * destruct IH as (pre & i & rest & s1 & -> & Hq & Hrest).
        exists (d :: pre), i, rest, s1. simpl. by rewrite Hstep.
      * done.
    + destruct (Prison.HaveAllPrisonersBeenInTheRoom s') eqn:Hall.
      * by exists [], d, draws, s, s'.
      * by exists [], d, draws, s, s'.
  - by exists [], d, draws, s.
Qed.

Lemma Run_claim pre prisoner_id rest s s1 s2 :
  Execution.Quiet pre s = Some s1 ->
  Prison.NextDay prisoner_id s1
    = Some (claim_that_everyone_has_been_in_the_room, s2) ->
  Prison.Run (pre ++ prisoner_id :: rest) s =
    if Prison.HaveAllPrisonersBeenInTheRoom s2
    then Returned (Prison.day_number s2)
    else FalsePrisonerClaimException.
Proof.
  revert s. induction pre as [|d pre IH]; intros s; simpl.
  - intros [= ->] ->. done.
  - destruct (Prison.NextDay d s) as [[[] s']|]; try done. simpl.
    apply IH.
Qed.

Lemma Run_quiet draws s :
  is_Some (Execution.Quiet draws s) -> Prison.Run draws s = StillRunning.
Proof.
  revert s. induction draws as [|d draws IH]; intros s; simpl; [done|].
  destruct (Prison.NextDay d s) as [[[] s']|]; simpl;
    [apply IH | by intros [? ?] | by intros [? ?]].
Qed.

Lemma NextDay_day prisoner_id s c s' :
  Prison.NextDay prisoner_id s = Some (c, s') ->
  Prison.day_number s' = Int32.add (Prison.day_number s) 1 /\
  Prison.n_prisoners s' = Prison.n_prisoners s /\
  exists prisoner prisoner',
    Prison.prisoners s !! Z.to_nat prisoner_id = Some prisoner /\
    TakeAction prisoner (mkInput (Prison.day_number s) (Prison.light s))
      = Some (c, prisoner', Prison.light s') /\
    Prison.prisoners s' = <[Z.to_nat prisoner_id := prisoner']> (Prison.prisoners s) /\
    Prison.prisoners_have_been_in_the_room_indicators s'
      = <[Z.to_nat prisoner_id := true]>
          (Prison.prisoners_have_been_in_the_room_indicators s) /\
    (Z.to_nat prisoner_id
       < length (Prison.prisoners_have_been_in_the_room_indicators s))%nat.
Proof.
  unfold Prison.NextDay. destruct (prisoner_id <? 0); [done|].
  destruct (Prison.prisoners_have_been_in_the_room_indicators s !! _)
    as [b|] eqn:Hb; [|done].
  destruct (Prison.prisoners s !! _) as [p|] eqn:Hp; [|done]. simpl.
  destruct (TakeAction p _) as [[[c0 p'] l']|] eqn:Hact; [|done]. simpl.
  intros [= <- <-]. simpl. repeat split.
  exists p, p'. repeat split; try done.
  by apply lookup_lt_Some in Hb.
Qed.

End Scheduler.

Section SchedulerClaims.
Context {P : Type} `{PrisonerBase P}.
Implicit Types (s : Prison.t P) (draws : list Z).

(** C9.  One scheduler step, for the agent [prisoner_id] that was drawn
    (an index of the vectors, that is a value of [[0, n_agents)]): the
    agent's VisitRecord entry is set, the other entries are kept; the
    agent's protocol is invoked with the day number and the signal of
    before the step and its effect on the agent and on the signal is
    stored; the day number is incremented once; the claim of the protocol
    is what the step returns.  A new prison starts at day 0. *)
Theorem NextDay_step (n : Z) s (prisoner_id : Z) (prisoner prisoner' : P)
    (prisoner_claim : PrisonerClaim) (light' : Light) :
  0 <= prisoner_id ->
  (Z.to_nat prisoner_id
     < length (Prison.prisoners_have_been_in_the_room_indicators s))%nat ->
  Prison.prisoners s !! Z.to_nat prisoner_id = Some prisoner ->
  TakeAction prisoner (mkInput (Prison.day_number s) (Prison.light s))
    = Some (prisoner_claim, prisoner', light') ->
  Prison.day_number (Prison.make (P:=P) n) = 0 /\
  exists s',
    Prison.NextDay prisoner_id s = Some (prisoner_claim, s') /\
    Prison.prisoners_have_been_in_the_room_indicators s'
      !! Z.to_nat prisoner_id = Some true /\
    (forall j, j <> Z.to_nat prisoner_id ->
       Prison.prisoners_have_been_in_the_room_indicators s' !! j
       = Prison.prisoners_have_been_in_the_room_indicators s !! j) /\
    Prison.prisoners s' !! Z.to_nat prisoner_id = Some prisoner' /\
    (forall j, j <> Z.to_nat prisoner_id ->
       Prison.prisoners s' !! j = Prison.prisoners s !! j) /\
    Prison.light s' = light' /\
    Prison.day_number s' = Int32.add (Prison.day_number s) 1 /\
    (Int32.in_range (Prison.day_number s + 1) ->
     Prison.day_number s' = Prison.day_number s + 1).
Proof.
  intros Hid Hlen Hp Hact. split; [done|].
  rewrite (NextDay_unfold s prisoner_id prisoner Hid Hlen Hp), Hact.
  eexists. split; [done|]. simpl.
  apply lookup_lt_Some in Hp as Hlt.
  repeat split.
  - by apply list_lookup_insert_eq.
  - intros j Hj. by apply list_lookup_insert_ne.
  - by apply list_lookup_insert_eq.
  - intros j Hj. by apply list_lookup_insert_ne.
  - apply add_small.
Qed.

(** C2, amended.  [Run] steps day after day until a claim of
    everyone-has-visited is produced.  It throws
    [FalsePrisonerClaimException] exactly when the first such claim is
    produced while some VisitRecord entry is false.  It returns [r]
    exactly when the first such claim is produced with every entry true,
    and [r] is then the day counter after the claiming visit: one more
    than the day number handed to the claiming agent.  As long as no
    claim is produced the loop goes on. *)
Theorem Run_outcome draws s :
  (Prison.Run draws s = FalsePrisonerClaimException <->
   exists pre prisoner_id rest s1 s2,
     draws = pre ++ prisoner_id :: rest /\
     Execution.Quiet pre s = Some s1 /\
     Prison.NextDay prisoner_id s1
       = Some (claim_that_everyone_has_been_in_the_room, s2) /\
     exists i,
       Prison.prisoners_have_been_in_the_room_indicators s2 !! i
       = Some false) /\
  (forall r,
     Prison.Run draws s = Returned r <->
     exists pre prisoner_id rest s1 s2,
       draws = pre ++ prisoner_id :: rest /\
       Execution.Quiet pre s = Some s1 /\
       Prison.NextDay prisoner_id s1
         = Some (claim_that_everyone_has_been_in_the_room, s2) /\
       (forall i b,
          Prison.prisoners_have_been_in_the_room_indicators s2 !! i = Some b ->
          b = true) /\
       r = Int32.add (Prison.day_number s1) 1) /\
  (Prison.Run draws s = StillRunning <-> is_Some (Execution.Quiet draws s)).
Proof.
  pose proof (Run_cases draws s) as Hcases.
  split; [|split].
  - split.
    + intros Hrun. rewrite Hrun in Hcases.
      destruct Hcases as (pre & i & rest & s1 & s2 & ? & ? & ? & Hall).
      exists pre, i, rest, s1, s2. repeat split; try done.
      by apply HaveAll_false.
    + intros (pre & i & rest & s1 & s2 & -> & Hq & Hstep & Hall).
      rewrite (Run_claim _ _ _ _ _ _ Hq Hstep).
      by rewrite (proj2 (HaveAll_false s2) Hall).
  - intros r. split.
    + intros Hrun. rewrite Hrun in Hcases.
      destruct Hcases as (pre & i & rest & s1 & s2 & ? & ? & Hstep & Hall & ->).
      destruct (NextDay_day _ _ _ _ Hstep) as [Hday _].
      exists pre, i, rest, s1, s2. repeat split; try done.
      by apply HaveAll_true.
    + intros (pre & i & rest & s1 & s2 & -> & Hq & Hstep & Hall & ->).
      destruct (NextDay_day _ _ _ _ Hstep) as [Hday _].
      rewrite (Run_claim _ _ _ _ _ _ Hq Hstep).
      by rewrite (proj2 (HaveAll_true s2) Hall), Hday.
  - split.
    + intros Hrun. by rewrite Hrun in Hcases.
    + apply Run_quiet.
Qed.

End SchedulerClaims.

(** Witness of C9: agent 1 of two dedicated-counter prisoners on day 0. *)
Lemma NextDay_step_witness :
  exists s',
    Prison.NextDay 1 (Prison.make (P:=DedicatedCounterPrisoner.t) 2)
      = Some (claim_nothing, s') /\
    Prison.prisoners_have_been_in_the_room_indicators s' !! 1%nat = Some true /\
    Prison.day_number s' = 1.
Proof.
  destruct (NextDay_step (P:=DedicatedCounterPrisoner.t) 2 (Prison.make 2) 1
              (DedicatedCounterPrisoner.make 1 2)
              (DedicatedCounterPrisoner.mk 1 2 true 0)
              claim_nothing (mkLight true)
              ltac:(lia) ltac:(simpl; lia) eq_refl eq_refl)
    as (_ & s' & Hstep & Hind & _ & _ & _ & _ & Hday & _).
  exists s'. split; [exact Hstep|]. split; [exact Hind | exact Hday].
Defined.

(** C2, as stated, fails: a single dedicated-counter prisoner claims on the
    visit of day 0, with the VisitRecord all true, and [Run] returns 1. *)
Lemma Run_returns_day_after_claim :
  (exists p' l',
     TakeAction (DedicatedCounterPrisoner.make 0 1) (mkInput 0 (mkLight false))
     = Some (claim_that_everyone_has_been_in_the_room, p', l')) /\
  Prison.Run [0] (Prison.make (P:=DedicatedCounterPrisoner.t) 1) = Returned 1 /\
  Prison.Run [0] (Prison.make (P:=DedicatedCounterPrisoner.t) 1) <> Returned 0.
Proof. split; [by eexists _, _ | split; [reflexivity | discriminate]]. Qed.

(** ** Executions and sums *)

Section Traces.
Context {P : Type} `{PrisonerBase P}.

Lemma trace_Forall (Inv : nat -> Prison.t P -> Prop) :
  (forall m d s c s',
     Inv m s -> Prison.NextDay d s = Some (c, s') -> Inv (S m) s') ->
  forall draws m s,
    Inv m s ->
    Forall (fun st => exists j, (j <= m + length draws)%nat /\ Inv j st)
           (Execution.trace draws s).
Proof.
  intros Hstep draws. induction draws as [|d draws IH]; intros m s Hinv.
  - simpl. repeat constructor. exists m. split; [lia | done].
  - simpl. constructor; [exists m; split; [lia | done]|].
    destruct (Prison.NextDay d s) as [[c s']|] eqn:Hd; [|constructor].
    eapply Forall_impl; [apply (IH (S m) s'); eauto|].
    simpl. intros st (j & Hj & Hst). exists j. split; [lia | done].
Qed.

End Traces.

Lemma sumZ_insert {A : Type} (f : A -> Z) (l : list A) (i : nat) (x y : A) :
  l !! i = Some x -> sumZ f (<[i := y]> l) = sumZ f l - f x + f y.
Proof.
  revert i. induction l as [|a l IH]; intros [|i] Hi; simpl in *; try done.
  - injection Hi as ->. lia.
  - rewrite (IH i Hi). lia.
Qed.

Lemma sumZ_nonneg {A : Type} (f : A -> Z) (l : list A) :
  Forall (fun a => 0 <= f a) l -> 0 <= sumZ f l.
Proof. induction 1; simpl; lia. Qed.

Lemma sumZ_lookup_le {A : Type} (f : A -> Z) (l : list A) (i : nat) (x : A) :
  Forall (fun a => 0 <= f a) l ->
  l !! i = Some x -> f x <= sumZ f l.
Proof.
  intros Hpos. revert i.
  induction Hpos as [|a l Ha Hl IH]; intros [|i] Hi; simpl in *; try done.
  - injection Hi as ->. pose proof (sumZ_nonneg f l Hl). lia.
  - specialize (IH i Hi). lia.
Qed.

Lemma sumZ_fmap_zero {A B : Type} (f : B -> Z) (g : A -> B) (l : list A) :
  (forall a, f (g a) = 0) -> sumZ f (g <$> l) = 0.
Proof. intros Hfg. induction l as [|a l IH]; simpl; [done|]. rewrite Hfg. apply IH. Qed.

Lemma sumZ_le_length {A : Type} (f : A -> Z) (l : list A) :
  (forall a, f a <= 1) -> sumZ f l <= Z.of_nat (length l).
Proof.
  intros Hf. induction l as [|a l IH]; simpl; [lia|].
  specialize (Hf a). lia.
Qed.

(** ** The histories of a flag that is never lowered *)

Lemma rises_true (h : list bool) : rises (true :: h) = rises h.
Proof. reflexivity. Qed.

Lemma rises_false_true (h : list bool) :
  rises (false :: true :: h) = S (rises (true :: h)).
Proof. reflexivity. Qed.

Lemma rises_false_false (h : list bool) :
  rises (false :: false :: h) = rises (false :: h).
Proof. reflexivity. Qed.

Lemma rises_all_true (h : list bool) :
  Forall (fun b => b = true) h -> rises h = 0%nat.
Proof.
  induction 1 as [|b h -> _ IH]; [done|]. by rewrite rises_true.
Qed.

Lemma rises_sticky (h : list bool) :
  (forall pre post, h = pre ++ true :: post -> Forall (fun b => b = true) post) ->
  (rises h <= 1)%nat.
Proof.
  induction h as [|b h IH]; intros Hsticky; [simpl; lia|].
  destruct b.
  - rewrite rises_true, rises_all_true; [lia|]. by apply (Hsticky [] h).
  - destruct h as [|[] h'].
    + simpl. lia.
    + rewrite rises_false_true, rises_true, rises_all_true; [lia|].
      by apply (Hsticky [false] h').
    + rewrite rises_false_false.
      apply IH. intros pre post Heq.
      apply (Hsticky (false :: pre) post). by rewrite Heq.
Qed.

(** ** DedicatedCounterPrisoner *)

Module CounterProofs.
Import DedicatedCounterPrisoner CounterSpec.


Lemma TakeAction_keeps_flag (p : t) (input : PrisonerInput) :
  has_turned_on_the_light p = true ->
  has_turned_on_the_light (TakeAction p input).1.2 = true.
Proof.
  intros Hp. unfold TakeAction. rewrite Hp. simpl.
  destruct (prisoner_id p =? 0); [|done].
  destruct (IsOn (light input)); simpl;
    match goal with |- context [if ?b then _ else _] => by destruct b end.
Qed.

Lemma has_signaled_step (i : nat) d s c s' :
  Prison.NextDay d s = Some (c, s') ->
  has_signaled i s = true -> has_signaled i s' = true.
Proof.
  intros Hstep.
  destruct (NextDay_day _ _ _ _ Hstep)
    as (_ & _ & p & p' & Hp & Hact & Hps & _).
  unfold has_signaled. rewrite Hps.
  destruct (decide (i = Z.to_nat d)) as [->|Hne].
  - rewrite Hp, list_lookup_insert_eq by (by apply lookup_lt_Some in Hp).
    intros Hflag. simpl in Hact. injection Hact as Hact.
    pose proof (TakeAction_keeps_flag p
                  (mkInput (Prison.day_number s) (Prison.light s)) Hflag) as Hk.
    by rewrite Hact in Hk.
  - by rewrite list_lookup_insert_ne.
Qed.

Lemma has_signaled_stays (i : nat) draws s :
  has_signaled i s = true ->
  Forall (fun st => has_signaled i st = true) (Execution.trace draws s).
Proof.
  intros Hs.
  eapply Forall_impl;
    [apply (trace_Forall (fun _ st => has_signaled i st = true)) with (m := 0%nat)|].
  - intros m d st c st' Hst Hstep. by eapply has_signaled_step.
  - done.
  - simpl. by intros st (_ & _ & Hst).
Qed.

Lemma history_sticky (i : nat) draws s pre post :
  has_signaled i <$> Execution.trace draws s = pre ++ true :: post ->
  Forall (fun b => b = true) post.
Proof.
  revert s pre. induction draws as [|d draws IH]; intros s pre; simpl.
  - destruct pre as [|b [|b' pre]]; simpl; intros [= ]; subst; constructor.
  - destruct pre as [|b pre]; simpl.
    + intros [= Hs <-].
      destruct (Prison.NextDay d s) as [[c s']|] eqn:Hstep; [|constructor].
      apply Forall_fmap.
      apply has_signaled_stays. by eapply has_signaled_step.
    + intros [= _ Hrest].
      destruct (Prison.NextDay d s) as [[c s']|] eqn:Hstep.
      * by eapply IH.
      * by destruct pre.
Qed.

Lemma flag_bounds (p : t) : 0 <= flag p <= 1.
Proof. unfold flag. destruct (has_turned_on_the_light p); lia. Qed.

Lemma CounterInv_bound n s l :
  1 <= n -> CounterInv n s -> leader s = Some l ->
  0 <= times_turned_off_the_light l + pending (Prison.light s) <= n - 1.
Proof.
  intros Hn (Hlen & _ & _ & l' & Hl' & Hflag & Hsum) Hl.
  rewrite Hl in Hl'. injection Hl' as <-. rewrite Hsum.
  unfold leader in Hl.
  destruct (Prison.prisoners s) as [|l0 tl]; [done|].
  injection Hl as ->. simpl in *.
  unfold flag at 1 3. rewrite Hflag.
  pose proof (sumZ_le_length flag tl (fun a => proj2 (flag_bounds a))).
  pose proof (sumZ_nonneg flag tl) as Hnn.
  assert (0 <= sumZ flag tl).
  { apply Hnn. apply Forall_forall. intros a _. apply flag_bounds. }
  lia.
Qed.

Lemma make_lookup {P : Type} `{PrisonerBase P} (n : Z) (i : nat) :
  (i < Z.to_nat n)%nat ->
  Prison.prisoners (Prison.make (P:=P) n) !! i
  = Some (construct (Z.of_nat i) n).
Proof.
  intros Hi. simpl. by rewrite list_lookup_fmap, lookup_seqZ_lt by lia.
Qed.

Lemma CounterInv_make n : 1 <= n -> CounterInv n (Prison.make n).
Proof.
  intros Hn. unfold CounterInv.
  split; [simpl; by rewrite length_fmap, length_seqZ|].
  split; [simpl; by rewrite length_replicate|].
  split.
  - intros i p Hp.
    pose proof (lookup_lt_Some _ _ _ Hp) as Hlt. simpl in Hlt.
    rewrite length_fmap, length_seqZ in Hlt.
    rewrite make_lookup in Hp by done. by injection Hp as <-.
  - exists (make 0 n). unfold leader.
    rewrite make_lookup by lia.
    split; [done|]. split; [done|].
    change (Prison.prisoners (Prison.make n))
      with ((fun i => make i n) <$> seqZ 0 n).
    by rewrite sumZ_fmap_zero.
Qed.

Lemma TakeAction_effect (p p' : t) (input : PrisonerInput) c l' :
  TakeAction p input = (c, p', l') ->
  prisoner_id p' = prisoner_id p /\
  n_prisoners p' = n_prisoners p /\
  (prisoner_id p = 0 ->
     has_turned_on_the_light p' = has_turned_on_the_light p /\
     times_turned_off_the_light p'
       = (if is_on (light input)
          then Int32.add (times_turned_off_the_light p) 1
          else times_turned_off_the_light p) /\
     pending l' = 0) /\
  (prisoner_id p <> 0 ->
     times_turned_off_the_light p' = times_turned_off_the_light p /\
     flag p' - flag p = pending l' - pending (light input)).
Proof.
  unfold TakeAction, IsOff, IsOn, flag, pending.
  destruct p as [id n has times], input as [day [on]]. simpl.
  destruct (Z.eqb_spec id 0) as [Hid|Hid].
  - destruct on; simpl;
      match goal with |- context [if ?b then _ else _] => destruct b end;
      intros [= <- <- <-]; simpl; repeat split; intros; try done; lia.
  - destruct has, on; simpl; intros [= <- <- <-]; simpl;
      repeat split; intros; try done; lia.
Qed.

Lemma CounterInv_step n d s c s' :
  1 <= n <= Int32.max_signed ->
  CounterInv n s -> Prison.NextDay d s = Some (c, s') -> CounterInv n s'.
Proof.
  intros Hn Hinv Hstep.
  pose proof Hinv as (Hlen & Hlen2 & Hids & l & Hl & Hlflag & Hsum).
  pose proof (CounterInv_bound n s l ltac:(lia) Hinv Hl) as Hb.
  destruct (NextDay_day _ _ _ _ Hstep)
    as (_ & _ & p & p' & Hp & Hact & Hps & Hind & _).
  simpl in Hact. injection Hact as Hact.
  apply TakeAction_effect in Hact as (Hid' & Hn' & Hlead & Hother).
  simpl in Hlead, Hother.
  destruct (Hids _ _ Hp) as [Hid Hnp].
  pose proof (lookup_lt_Some _ _ _ Hp) as Hlt.
  unfold CounterInv. rewrite Hps, Hind, !length_insert.
  split; [done|]. split; [done|]. split.
  - intros j q Hq.
    destruct (decide (j = Z.to_nat d)) as [->|Hne].
    + rewrite list_lookup_insert_eq in Hq by done.
      injection Hq as <-. by rewrite Hid', Hn'.
    + rewrite list_lookup_insert_ne in Hq by done. by apply Hids.
  - unfold leader in *. rewrite Hps.
    rewrite (sumZ_insert flag _ _ p p' Hp).
    destruct (decide (prisoner_id p = 0)) as [Hz|Hnz].
    + assert (Z.to_nat d = 0%nat) as Hd0 by lia.
      rewrite Hd0 in *. rewrite Hp in Hl. injection Hl as <-.
      destruct (Hlead Hz) as (Hhas & Htimes & Hpend).
      exists p'. rewrite list_lookup_insert_eq by done.
      split; [done|]. split; [congruence|].
      assert (flag p' = flag p) as Hflag by (unfold flag; by rewrite Hhas).
      rewrite Hpend, Htimes. unfold pending in Hsum, Hb.
      destruct (is_on (Prison.light s)).
      * rewrite add_small; [lia|].
        unfold Int32.in_range, Int32.min_signed, Int32.max_signed in *. lia.
      * lia.
    + assert (Z.to_nat d <> 0%nat) as Hd0 by lia.
      destruct (Hother Hnz) as (Htimes & Hflag).
      exists l. rewrite list_lookup_insert_ne by done.
      split; [done|]. split; [done|]. lia.
Qed.

Lemma NextDay_defined (d : Z) (s : Prison.t t) :
  0 <= d ->
  (Z.to_nat d < length (Prison.prisoners s))%nat ->
  (Z.to_nat d
     < length (Prison.prisoners_have_been_in_the_room_indicators s))%nat ->
  is_Some (Prison.NextDay d s).
Proof.
  intros Hd Hlt1 Hlt2.
  destruct (lookup_lt_is_Some_2 _ _ Hlt1) as [p Hp].
  rewrite (NextDay_unfold s d p Hd Hlt2 Hp). simpl.
  by destruct (TakeAction p _) as [[? ?] ?].
Qed.

Lemma trace_complete n draws s :
  1 <= n <= Int32.max_signed ->
  CounterInv n s ->
  Forall (fun d => 0 <= d < n) draws ->
  length (Execution.trace draws s) = S (length draws).
Proof.
  intros Hn Hinv Hdraws. revert s Hinv.
  induction Hdraws as [|d draws Hd _ IH]; intros s Hinv; simpl; [done|].
  pose proof Hinv as (Hlen & Hlen2 & _).
  destruct (NextDay_defined d s) as [[c s'] Hstep]; [lia..|].
  rewrite Hstep. f_equal. apply IH. by eapply CounterInv_step.
Qed.

(** C8.  In a run of [n >= 1] dedicated-counter prisoners, whatever the
    draws: every visit is defined; in every state the run goes through,
    the off-count of the leader is at most [n - 1]; and along the run the
    flag [has_turned_on_the_light] of any prisoner goes from false to true
    at most once. *)
Theorem counter_run_invariants (n : Z) (draws : list Z) :
  1 <= n <= Int32.max_signed ->
  Forall (fun d => 0 <= d < n) draws ->
  length (Execution.trace draws (Prison.make (P:=t) n)) = S (length draws) /\
  (forall st l,
     st ∈ Execution.trace draws (Prison.make (P:=t) n) ->
     leader st = Some l ->
     times_turned_off_the_light l <= n - 1) /\
  (forall i,
     (rises (has_signaled i
               <$> Execution.trace draws (Prison.make (P:=t) n)) <= 1)%nat).
Proof.
  intros Hn Hdraws.
  pose proof (CounterInv_make n ltac:(lia)) as Hinit.
  split; [by eapply trace_complete|]. split.
  - intros st l Hst Hl.
    pose proof (trace_Forall (fun _ => CounterInv n)
                  (fun m d s c s' Hs Hd => CounterInv_step n d s c s' Hn Hs Hd)
                  draws 0%nat _ Hinit) as Hall.
    rewrite Forall_forall in Hall.
    destruct (Hall st Hst) as (_ & _ & Hinv).
    pose proof (CounterInv_bound n st l ltac:(lia) Hinv Hl) as Hb.
    unfold pending in Hb. destruct (is_on (Prison.light st)); lia.
  - intros i. apply rises_sticky. intros pre post Heq.
    by eapply history_sticky.
Qed.

End CounterProofs.

(** Witness of C8: three prisoners, five days. *)
Lemma counter_run_invariants_witness :
  length (Execution.trace [1; 0; 2; 2; 0]
            (Prison.make (P:=DedicatedCounterPrisoner.t) 3)) = 6%nat /\
  Nat.le (rises (CounterSpec.has_signaled 2
                   <$> Execution.trace [1; 0; 2; 2; 0]
                         (Prison.make (P:=DedicatedCounterPrisoner.t) 3))) 1.
Proof.
  destruct (CounterProofs.counter_run_invariants 3 [1; 0; 2; 2; 0])
    as (Hlen & _ & Hrises).
  - unfold Int32.max_signed. lia.
  - repeat constructor; lia.
  - split; [exact Hlen | exact (Hrises 2%nat)].
Defined.

(** ** TokenPrisoner: the stage schedule *)

Module TokenProofs.
Import TokenPrisoner TokenSpec.

Lemma land_pow2_le (a s : Z) :
  0 <= a -> 0 <= s -> Z.land a (2 ^ s) <> 0 -> 2 ^ s <= a.
Proof.
  intros Ha Hs Hland. destruct (Z.le_gt_cases (2 ^ s) a) as [|Hlt]; [done|].
  exfalso. apply Hland. apply Z.bits_inj'. intros l Hl.
  rewrite Z.land_spec, Z.bits_0, Z.pow2_bits_eqb by done.
  destruct (Z.eqb_spec s l) as [<-|]; [|apply andb_false_r].
  rewrite (proj1 (Z.bounded_iff_bits_nonneg s a Hs Ha) Hlt s); [done | lia].
Qed.

Section Schedule.
Variable N : Z.
Hypothesis N_ge_2 : 2 <= N.
Hypothesis N_small : small N.

Lemma k_pos : 1 <= k N.
Proof. unfold k. pose proof (Z.log2_up_pos N). lia. Qed.

Lemma seven_N_small : 7 * N <= Int32.max_signed.
Proof. pose proof k_pos. unfold small in N_small. nia. Qed.

Lemma k_le_29 : k N <= 29.
Proof.
  pose proof seven_N_small as H7. pose proof k_pos as Hk.
  destruct (Z.log2_up_spec N ltac:(lia)) as [Hlo _]. fold (k N) in Hlo.
  unfold Int32.max_signed in H7.
  assert (2 ^ Z.pred (k N) < 2 ^ 29) as Hpow by lia.
  apply Z.pow_lt_mono_r_iff in Hpow; lia.
Qed.

Lemma pow_k_bounds : N <= 2 ^ k N < 2 * N.
Proof.
  pose proof k_pos as Hk.
  destruct (Z.log2_up_spec N ltac:(lia)) as [Hlo Hhi]. fold (k N) in Hlo, Hhi.
  split; [done|].
  replace (k N) with (Z.succ (Z.pred (k N))) by lia.
  rewrite Z.pow_succ_r by lia. lia.
Qed.

Lemma stage_range (day : Z) : 0 <= day -> 0 <= stage N day < k N.
Proof.
  intros Hday. pose proof k_pos as Hk. unfold stage.
  destruct (Z.ltb_spec day (k N * 7 * N)) as [Hlt|Hge].
  - split; [apply Z.div_pos; lia|].
    apply Z.div_lt_upper_bound; lia.
  - apply Z.mod_pos_bound. lia.
Qed.

Lemma pow_stage_bounds (day : Z) :
  0 <= day -> 1 <= 2 ^ stage N day <= 2 ^ 28.
Proof.
  intros Hday. pose proof (stage_range day Hday) as Hs.
  pose proof k_le_29.
  split.
  - assert (0 < 2 ^ stage N day) by (apply Z.pow_pos_nonneg; lia). lia.
  - apply Z.pow_le_mono_r; lia.
Qed.

Lemma shl_stage (day : Z) :
  0 <= day -> Int32.shl 1 (stage N day) = 2 ^ stage N day.
Proof.
  intros Hday. pose proof (stage_range day Hday). pose proof k_le_29.
  apply shl_one_small. lia.
Qed.

Lemma shl_k : Int32.shl 1 (k N) = 2 ^ k N.
Proof. pose proof k_pos. pose proof k_le_29. apply shl_one_small. lia. Qed.

(** On the days of a run the source computes the stage of the
    specification, for every prisoner of the prison alike. *)
Lemma GetStageIndex_stage (p : t) (day : Z) :
  n_prisoners p = N ->
  0 <= day <= Int32.max_signed ->
  GetStageIndex p day = Some (stage N day).
Proof.
  intros Hp Hday. pose proof k_pos as Hk. pose proof seven_N_small as H7.
  unfold small in N_small.
  unfold GetStageIndex, GetClosestNotSmallerPowerOf2, stage.
  rewrite Hp. fold (k N).
  assert (Int32.mul N 7 = 7 * N) as ->.
  { rewrite mul_small; [lia|].
    unfold Int32.in_range, Int32.min_signed, Int32.max_signed in *. lia. }
  assert (Int32.mul N 3 = 3 * N) as ->.
  { rewrite mul_small; [lia|].
    unfold Int32.in_range, Int32.min_signed, Int32.max_signed in *. lia. }
  assert (Int32.mul (k N) (7 * N) = k N * 7 * N) as ->.
  { rewrite mul_small; [lia|].
    unfold Int32.in_range, Int32.min_signed, Int32.max_signed in *. nia. }
  destruct (Z.ltb_spec day (k N * 7 * N)) as [Hlt|Hge].
  - rewrite div_defined by lia. by rewrite Z.quot_div_nonneg by lia.
  - rewrite sub_small
      by (unfold Int32.in_range, Int32.min_signed, Int32.max_signed in *; nia).
    rewrite div_defined by lia. simpl.
    rewrite rem_defined by lia.
    rewrite Z.quot_div_nonneg by lia.
    rewrite Z.rem_mod_nonneg; [done| |lia].
    apply Z.div_pos; lia.
Qed.

Lemma IsLastDayOfTheStage_last (p : t) (day : Z) :
  n_prisoners p = N ->
  0 <= day < Int32.max_signed ->
  IsLastDayOfTheStage p day = Some (last_day_of_stage N day).
Proof.
  intros Hp Hday. unfold IsLastDayOfTheStage, last_day_of_stage.
  rewrite add_small
    by (unfold Int32.in_range, Int32.min_signed, Int32.max_signed in *; lia).
  by rewrite !GetStageIndex_stage by (done || lia).
Qed.

End Schedule.

(** C7.  For [N >= 2] prisoners (so that there is at least one stage),
    within the 32-bit assumption, and for every day [day >= 0] of a run:
    the stage index computed by any prisoner is
    [day / (7*N)] when [day < k*7*N] and
    [((day - k*7*N) / (3*N)) mod k] otherwise, with [k = ceil(log2 N)]; it
    depends on the day and on [N] only; and the last-day test holds
    exactly when the stage of the next day differs. *)
Theorem stage_schedule (N day : Z) (p : t) :
  2 <= N -> small N ->
  n_prisoners p = N ->
  0 <= day < Int32.max_signed ->
  GetStageIndex p day
    = Some (if day <? k N * 7 * N then day / (7 * N)
            else ((day - k N * 7 * N) / (3 * N)) mod k N) /\
  GetStageIndex p day = Some (stage N day) /\
  GetStageIndex p (day + 1) = Some (stage N (day + 1)) /\
  IsLastDayOfTheStage p day
    = Some (negb (stage N day =? stage N (day + 1))).
Proof.
  intros HN Hsmall Hp Hday.
  rewrite !(GetStageIndex_stage N HN Hsmall) by (done || lia).
  by rewrite (IsLastDayOfTheStage_last N HN Hsmall).
Qed.

(** ** TokenPrisoner: one visit *)

Section Visit.
Variable N : Z.
Hypothesis N_ge_2 : 2 <= N.
Hypothesis N_small : small N.

Lemma MaybeTurnOffLight_eq (p : t) (day : Z) (l : Light) :
  n_prisoners p = N ->
  0 <= day < Int32.max_signed ->
  Int32.min_signed <= n_tokens p <= Int32.max_signed - 2 ^ 28 ->
  MaybeTurnOffLight p (mkInput day l)
  = Some (set_tokens p (maybe_turn_off N day (n_tokens p) (is_on l)).1,
          mkLight (maybe_turn_off N day (n_tokens p) (is_on l)).2).
Proof.
  intros Hp Hday Htok.
  pose proof (pow_stage_bounds N N_ge_2 N_small day ltac:(lia)) as Hrate.
  destruct p as [id n tokens], l as [on]. simpl in *.
  unfold MaybeTurnOffLight, maybe_turn_off, IsOff, IsOn. simpl.
  destruct on; simpl; [|done].
  rewrite (GetStageIndex_stage N N_ge_2 N_small) by (done || lia). simpl.
  rewrite (IsLastDayOfTheStage_last N N_ge_2 N_small) by done. simpl.
  rewrite (shl_stage N N_ge_2 N_small) by lia.
  unfold Int32.and. rewrite orb_comm.
  destruct (negb (Z.land tokens (2 ^ stage N day) =? 0)
            || last_day_of_stage N day); simpl; [|done].
  unfold set_tokens. simpl. rewrite add_small; [done|].
  unfold Int32.in_range, Int32.min_signed, Int32.max_signed in *. lia.
Qed.

Lemma MaybeTurnOnLight_eq (p : t) (day : Z) (l : Light) :
  n_prisoners p = N ->
  0 <= day < Int32.max_signed ->
  Int32.min_signed + 2 ^ 28 <= n_tokens p <= Int32.max_signed ->
  MaybeTurnOnLight p (mkInput day l)
  = Some (set_tokens p (maybe_turn_on N day (n_tokens p) (is_on l)).1,
          mkLight (maybe_turn_on N day (n_tokens p) (is_on l)).2).
Proof.
  intros Hp Hday Htok.
  pose proof (pow_stage_bounds N N_ge_2 N_small (day + 1) ltac:(lia)) as Hrate.
  destruct p as [id n tokens], l as [on]. simpl in *.
  unfold MaybeTurnOnLight, maybe_turn_on, IsOn. simpl.
  destruct on; simpl; [done|].
  rewrite add_small
    by (unfold Int32.in_range, Int32.min_signed, Int32.max_signed in *; lia).
  rewrite (GetStageIndex_stage N N_ge_2 N_small) by (done || lia). simpl.
  rewrite (shl_stage N N_ge_2 N_small) by lia.
  unfold Int32.and.
  destruct (negb (Z.land tokens (2 ^ stage N (day + 1)) =? 0)); simpl; [|done].
  unfold set_tokens. simpl. rewrite sub_small; [done|].
  unfold Int32.in_range, Int32.min_signed, Int32.max_signed in *. lia.
Qed.

Lemma maybe_turn_off_tokens (day tokens : Z) (signal : bool) :
  0 <= day ->
  tokens <= (maybe_turn_off N day tokens signal).1 <= tokens + 2 ^ 28.
Proof.
  intros Hday.
  pose proof (pow_stage_bounds N N_ge_2 N_small day Hday) as Hrate.
  unfold maybe_turn_off. destruct signal; simpl; [|lia].
  destruct (_ || _); simpl; lia.
Qed.

(** The visit of the source is the visit of the specification. *)
Lemma TakeAction_eq_visit (p : t) (day : Z) (l : Light) :
  n_prisoners p = N ->
  0 <= day < Int32.max_signed ->
  Int32.min_signed + 2 ^ 28 <= n_tokens p <= Int32.max_signed - 2 ^ 28 ->
  TakeAction p (mkInput day l)
  = Some ((visit N day (n_tokens p) (is_on l)).1.1,
          set_tokens p (visit N day (n_tokens p) (is_on l)).1.2,
          mkLight (visit N day (n_tokens p) (is_on l)).2).
Proof.
  intros Hp Hday Htok.
  pose proof (maybe_turn_off_tokens day (n_tokens p) (is_on l) ltac:(lia))
    as Hoff.
  unfold TakeAction, visit.
  rewrite MaybeTurnOffLight_eq by (done || lia). simpl.
  destruct (maybe_turn_off N day (n_tokens p) (is_on l))
    as [tokens1 signal1] eqn:Hoff_eq. simpl in *.
  rewrite MaybeTurnOnLight_eq by (done || simpl; lia). simpl.
  destruct (maybe_turn_on N day tokens1 signal1)
    as [tokens2 signal2] eqn:Hon_eq. simpl.
  unfold ShouldClaimThatEveryoneHasBeenInTheRoom. simpl.
  unfold GetClosestNotSmallerPowerOf2. rewrite Hp. fold (k N).
  rewrite (shl_k N N_ge_2 N_small).
  by destruct (tokens2 =? 2 ^ k N).
Qed.

(** A visit moves weight between the prisoner and the light and
    creates none. *)
Lemma visit_conserves (day tokens : Z) (signal : bool) :
  0 <= day -> 0 <= tokens ->
  0 <= (visit N day tokens signal).1.2 /\
  (visit N day tokens signal).1.2
    + offered N (day + 1) (mkLight (visit N day tokens signal).2)
  = tokens + offered N day (mkLight signal).
Proof.
  intros Hday Htok.
  pose proof (pow_stage_bounds N N_ge_2 N_small day Hday) as Hrate.
  pose proof (pow_stage_bounds N N_ge_2 N_small (day + 1) ltac:(lia)) as Hnext.
  pose proof (stage_range N N_ge_2 (day + 1) ltac:(lia)) as Hs.
  unfold visit, maybe_turn_off, maybe_turn_on, offered, last_day_of_stage.
  simpl.
  destruct signal; simpl.
  - destruct (Z.eqb_spec (Z.land tokens (2 ^ stage N day)) 0) as [Hbit|Hbit];
      simpl.
    + destruct (Z.eqb_spec (stage N day) (stage N (day + 1))) as [Heq|Hne];
        simpl.
      * rewrite Heq. lia.
      * destruct (Z.eqb_spec
                    (Z.land (tokens + 2 ^ stage N day) (2 ^ stage N (day + 1)))
                    0) as [Hb|Hb]; simpl; [lia|].
        apply land_pow2_le in Hb; lia.
    + destruct (Z.eqb_spec
                  (Z.land (tokens + 2 ^ stage N day) (2 ^ stage N (day + 1)))
                  0) as [Hb|Hb]; simpl; [lia|].
      apply land_pow2_le in Hb; lia.
  - destruct (Z.eqb_spec (Z.land tokens (2 ^ stage N (day + 1))) 0)
      as [Hb|Hb]; simpl; [lia|].
    apply land_pow2_le in Hb; lia.
Qed.

End Visit.

(** The visit in order, where the stage schedule is defined.  For
    [N >= 2] within the 32-bit assumption, on a day [day >= 0]
    and with a token count away from the 32-bit limits, the visit of a
    token prisoner is, in this order: the absorption step
    ([maybe_turn_off]: with the signal on and [rate = 2^stage(day)], if
    the rate bit of the tokens is set or the day is the last of its
    stage, the tokens grow by [rate] and the signal goes off), then the
    offering step on the outcome of the first ([maybe_turn_on]: with the
    signal off and [next_rate = 2^stage(day+1)], if the next-rate bit is
    set the tokens shrink by [next_rate] and the signal goes on), then
    the claim, made exactly when the tokens equal [2^k]. *)
Theorem TakeAction_in_order (N day : Z) (p : t) (l : Light) :
  2 <= N -> small N ->
  n_prisoners p = N ->
  0 <= day < Int32.max_signed ->
  Int32.min_signed + 2 ^ 28 <= n_tokens p <= Int32.max_signed - 2 ^ 28 ->
  exists tokens1 signal1 tokens2 signal2,
    maybe_turn_off N day (n_tokens p) (is_on l) = (tokens1, signal1) /\
    MaybeTurnOffLight p (mkInput day l)
      = Some (set_tokens p tokens1, mkLight signal1) /\
    maybe_turn_on N day tokens1 signal1 = (tokens2, signal2) /\
    MaybeTurnOnLight (set_tokens p tokens1) (mkInput day (mkLight signal1))
      = Some (set_tokens p tokens2, mkLight signal2) /\
    TakeAction p (mkInput day l)
      = Some (if tokens2 =? 2 ^ k N
              then claim_that_everyone_has_been_in_the_room
              else claim_nothing,
              set_tokens p tokens2, mkLight signal2).
Proof.
  intros HN Hsmall Hp Hday Htok.
  pose proof (maybe_turn_off_tokens N HN Hsmall day (n_tokens p) (is_on l)
                ltac:(lia)) as Hoff.
  pose proof (TakeAction_eq_visit N HN Hsmall p day l Hp Hday Htok) as Hact.
  pose proof (MaybeTurnOffLight_eq N HN Hsmall p day l Hp Hday ltac:(lia))
    as Hoff_eq.
  unfold visit in Hact.
  destruct (maybe_turn_off N day (n_tokens p) (is_on l))
    as [tokens1 signal1]. simpl in *.
  pose proof (MaybeTurnOnLight_eq N HN Hsmall (set_tokens p tokens1) day
                (mkLight signal1) Hp Hday ltac:(simpl; lia)) as Hon_eq.
  simpl in Hon_eq.
  destruct (maybe_turn_on N day tokens1 signal1) as [tokens2 signal2] eqn:Hon.
  simpl in *.
  exists tokens1, signal1, tokens2, signal2.
  split; [done|]. split; [exact Hoff_eq|]. split; [exact Hon|].
  split; [exact Hon_eq | exact Hact].
Qed.

(** With a single prisoner no stage is defined on any day of a run. *)
Lemma GetStageIndex_no_stage (p : t) (day : Z) :
  n_prisoners p = 1 -> 0 <= day -> GetStageIndex p day = None.
Proof.
  intros Hp Hday. unfold GetStageIndex. rewrite Hp.
  change (GetClosestNotSmallerPowerOf2 1) with 0.
  change (Int32.mul 1 7) with 7. change (Int32.mul 1 3) with 3.
  change (Int32.mul 0 7) with 0.
  destruct (Z.ltb_spec day 0); [lia|].
  by rewrite (div_defined (Int32.sub day 0) 3) by lia.
Qed.

(** C6, on the code.  With a single prisoner the visit does not perform
    the three steps of the claim: on every day [day >= 0] and whatever the
    signal, the step that applies (the absorption step when the signal is
    on, the offering step when it is off) asks for a stage, the stage
    computation divides by [n_stages = 0], and [TakeAction] is undefined.
    No claim and no 'none' is emitted, although the prisoner as built
    holds [1 = 2^k] tokens and its claim test holds. *)
Theorem TakeAction_single_prisoner (p : t) (day : Z) (l : Light) :
  n_prisoners p = 1 ->
  0 <= day < Int32.max_signed ->
  (IsOn l = true -> MaybeTurnOffLight p (mkInput day l) = None) /\
  (IsOn l = false ->
     MaybeTurnOffLight p (mkInput day l) = Some (p, l) /\
     MaybeTurnOnLight p (mkInput day l) = None) /\
  TakeAction p (mkInput day l) = None /\
  (n_tokens p = 1 ->
     n_tokens p = 2 ^ k (n_prisoners p) /\
     ShouldClaimThatEveryoneHasBeenInTheRoom p = true).
Proof.
  intros Hp Hday.
  pose proof (GetStageIndex_no_stage p day Hp ltac:(lia)) as Htoday.
  assert (GetStageIndex p (Int32.add day 1) = None) as Htomorrow.
  { rewrite add_small
      by (unfold Int32.in_range, Int32.min_signed, Int32.max_signed in *; lia).
    apply GetStageIndex_no_stage; [done | lia]. }
  assert (IsOn l = true -> MaybeTurnOffLight p (mkInput day l) = None) as Hon.
  { intros Hl. unfold MaybeTurnOffLight, IsOff. simpl.
    by rewrite Hl, Htoday. }
  assert (IsOn l = false ->
          MaybeTurnOffLight p (mkInput day l) = Some (p, l) /\
          MaybeTurnOnLight p (mkInput day l) = None) as Hoff.
  { intros Hl. unfold MaybeTurnOffLight, MaybeTurnOnLight, IsOff. simpl.
    by rewrite Hl, Htomorrow. }
  split; [done|]. split; [done|]. split.
  - unfold TakeAction. destruct (IsOn l) eqn:Hl.
    + by rewrite (Hon eq_refl).
    + destruct (Hoff eq_refl) as [-> Hnone]. simpl. by rewrite Hnone.
  - intros Htok.
    unfold ShouldClaimThatEveryoneHasBeenInTheRoom. rewrite Hp, Htok.
    by split.
Qed.

(** ** TokenPrisoner: the token mass along a run *)

Lemma sumZ_app {A : Type} (f : A -> Z) (l1 l2 : list A) :
  sumZ f (l1 ++ l2) = sumZ f l1 + sumZ f l2.
Proof. induction l1 as [|a l1 IH]; simpl; lia. Qed.

Lemma sumZ_fmap {A B : Type} (f : B -> Z) (g : A -> B) (l : list A) :
  sumZ f (g <$> l) = sumZ (fun a => f (g a)) l.
Proof. unfold sumZ. induction l as [|a l IH]; simpl; [done|]. by f_equal. Qed.

Lemma sumZ_const {A : Type} (f : A -> Z) (c : Z) (l : list A) :
  Forall (fun a => f a = c) l -> sumZ f l = c * Z.of_nat (length l).
Proof. induction 1 as [|a l Ha _ IH]; simpl; lia. Qed.

Lemma k_le_30 (N : Z) : 1 <= N <= 2 ^ 30 -> 0 <= k N <= 30.
Proof.
  intros HN. unfold k. split; [apply Z.log2_up_nonneg|].
  rewrite <- (Z.log2_up_pow2 30) by lia. apply Z.log2_up_le_mono. lia.
Qed.

Lemma pow_k_bounds_1 (N : Z) : 1 <= N -> N <= 2 ^ k N < 2 * N.
Proof.
  intros HN. destruct (decide (N = 1)) as [->|Hne]; [by vm_compute|].
  apply pow_k_bounds. lia.
Qed.

(** The constructors hand out [2^k] tokens in all. *)
Lemma make_total (N : Z) :
  1 <= N <= 2 ^ 30 -> total_tokens (Prison.make N) = 2 ^ k N.
Proof.
  intros HN. pose proof (k_le_30 N HN) as Hk.
  pose proof (pow_k_bounds_1 N ltac:(lia)) as Hpow.
  unfold total_tokens.
  change (Prison.prisoners (Prison.make N))
    with ((fun i => make i N) <$> seqZ 0 N).
  rewrite sumZ_fmap. simpl.
  unfold GetClosestNotSmallerPowerOf2. fold (k N).
  rewrite shl_one_small by lia.
  rewrite sub_small
    by (unfold Int32.in_range, Int32.min_signed, Int32.max_signed; lia).
  replace N with ((2 ^ k N - N) + (2 * N - 2 ^ k N)) at 1 by lia.
  rewrite seqZ_app, sumZ_app by lia.
  rewrite (sumZ_const _ 2), (sumZ_const _ 1).
  - rewrite !length_seqZ. lia.
  - apply Forall_seqZ. intros i Hi.
    destruct (Z.ltb_spec i (2 ^ k N - N)); [lia | done].
  - apply Forall_seqZ. intros i Hi.
    destruct (Z.ltb_spec i (2 ^ k N - N)); [done | lia].
Qed.

Section Run.
Variable N : Z.
Hypothesis N_ge_2 : 2 <= N.
Hypothesis N_small : small N.

Lemma offered_nonneg (day : Z) (l : Light) : 0 <= day -> 0 <= offered N day l.
Proof.
  intros Hday. unfold offered.
  pose proof (pow_stage_bounds N N_ge_2 N_small day Hday).
  destruct (is_on l); lia.
Qed.

Lemma N_le_pow30 : 1 <= N <= 2 ^ 30.
Proof.
  pose proof (seven_N_small N N_ge_2 N_small) as H7.
  unfold Int32.max_signed in H7. lia.
Qed.

Lemma TokenInv_make : TokenInv N (Prison.make N).
Proof.
  unfold TokenInv.
  split; [simpl; by rewrite length_fmap, length_seqZ|].
  split; [simpl; by rewrite length_replicate|].
  split.
  - simpl. apply Forall_fmap, Forall_forall. intros i _. simpl.
    split; [done|]. by destruct (_ <? _).
  - rewrite (make_total N N_le_pow30). unfold offered. simpl. lia.
Qed.

Lemma tokens_bounds (s : Prison.t t) (i : nat) (p : t) :
  TokenInv N s -> 0 <= Prison.day_number s ->
  Prison.prisoners s !! i = Some p ->
  n_prisoners p = N /\ 0 <= n_tokens p <= 2 ^ 29.
Proof.
  intros (_ & _ & Hall & Hsum) Hday Hp.
  destruct (Forall_lookup_1 _ _ _ _ Hall Hp) as [HpN Hp0].
  pose proof (offered_nonneg (Prison.day_number s) (Prison.light s) Hday).
  assert (n_tokens p <= total_tokens s).
  { apply (sumZ_lookup_le n_tokens _ i); [|done].
    eapply Forall_impl; [exact Hall|]. by intros q [_ ?]. }
  assert (2 ^ k N <= 2 ^ 29).
  { apply Z.pow_le_mono_r; [lia|]. apply (k_le_29 N N_ge_2 N_small). }
  lia.
Qed.

Lemma TokenInv_step (d : Z) (s s' : Prison.t t) (c : PrisonerClaim) :
  TokenInv N s ->
  0 <= Prison.day_number s < Int32.max_signed ->
  Prison.NextDay d s = Some (c, s') ->
  TokenInv N s' /\ Prison.day_number s' = Prison.day_number s + 1.
Proof.
  intros Hinv Hday Hstep.
  destruct (NextDay_day _ _ _ _ Hstep)
    as (Hday' & _ & p & p' & Hp & Hact & Hps & Hind & _).
  destruct (tokens_bounds s _ p Hinv ltac:(lia) Hp) as [HpN Htok].
  destruct Hinv as (Hlen & Hlen2 & Hall & Hsum).
  rewrite add_small in Hday'
    by (unfold Int32.in_range, Int32.min_signed, Int32.max_signed in *; lia).
  split; [|done].
  simpl in Hact.
  rewrite (TakeAction_eq_visit N N_ge_2 N_small) in Hact;
    [|done|done|unfold Int32.min_signed, Int32.max_signed; lia].
  injection Hact as _ Hp' Hl'.
  destruct (visit_conserves N N_ge_2 N_small (Prison.day_number s)
              (n_tokens p) (is_on (Prison.light s)) ltac:(lia) ltac:(lia))
    as [Hpos Hcons].
  rewrite Hl' in Hcons.
  unfold TokenInv, total_tokens.
  rewrite Hps, Hind, !length_insert, Hday'.
  split; [done|]. split; [done|]. split.
  - apply Forall_insert; [done|]. rewrite <- Hp'. simpl. by split.
  - rewrite (sumZ_insert n_tokens _ _ p p' Hp).
    rewrite <- Hp' at 1. simpl.
    unfold total_tokens in Hsum.
    assert (offered N (Prison.day_number s) (mkLight (is_on (Prison.light s)))
            = offered N (Prison.day_number s) (Prison.light s)) as Hoff
      by done.
    lia.
Qed.

Lemma token_NextDay_defined (d : Z) (s : Prison.t t) :
  TokenInv N s ->
  0 <= Prison.day_number s < Int32.max_signed ->
  0 <= d < N ->
  is_Some (Prison.NextDay d s).
Proof.
  intros Hinv Hday Hd.
  pose proof Hinv as (Hlen & Hlen2 & _).
  destruct (lookup_lt_is_Some_2 (Prison.prisoners s) (Z.to_nat d)
              ltac:(lia)) as [p Hp].
  destruct (tokens_bounds s _ p Hinv ltac:(lia) Hp) as [HpN Htok].
  rewrite (NextDay_unfold s d p ltac:(lia) ltac:(lia) Hp). simpl.
  rewrite (TakeAction_eq_visit N N_ge_2 N_small);
    [done|done|done|unfold Int32.min_signed, Int32.max_signed; lia].
Qed.

Lemma TokenInvAt_step (m : nat) d s c s' :
  TokenInvAt N m s -> Prison.NextDay d s = Some (c, s') ->
  TokenInvAt N (S m) s'.
Proof.
  intros Hinv Hstep Hm.
  destruct (Hinv ltac:(lia)) as [Hday Hs].
  destruct (TokenInv_step d s s' c Hs ltac:(lia) Hstep) as [Hs' Hday'].
  split; [lia | done].
Qed.

Lemma token_trace_inv (draws : list Z) (st : Prison.t t) :
  Z.of_nat (length draws) <= Int32.max_signed ->
  st ∈ Execution.trace draws (Prison.make (P:=t) N) ->
  0 <= Prison.day_number st <= Int32.max_signed /\ TokenInv N st.
Proof.
  intros Hlen Hst.
  pose proof (trace_Forall (TokenInvAt N) TokenInvAt_step draws 0%nat
                (Prison.make N)) as Hall.
  rewrite Forall_forall in Hall.
  destruct (Hall (fun _ => conj eq_refl TokenInv_make) st Hst)
    as (j & Hj & Hinv).
  destruct (Hinv ltac:(lia)) as [Hday Hs].
  split; [lia | done].
Qed.

Lemma token_trace_complete (draws : list Z) (m : nat) (s : Prison.t t) :
  TokenInvAt N m s ->
  Z.of_nat m + Z.of_nat (length draws) <= Int32.max_signed ->
  Forall (fun d => 0 <= d < N) draws ->
  length (Execution.trace draws s) = S (length draws).
Proof.
  intros Hinv Hlen Hdraws. revert m s Hinv Hlen.
  induction Hdraws as [|d draws Hd _ IH]; intros m s Hinv Hlen; [done|].
  simpl in *.
  destruct (Hinv ltac:(lia)) as [Hday Hs].
  destruct (token_NextDay_defined d s Hs ltac:(lia) Hd) as [[c s'] Hstep].
  rewrite Hstep. f_equal.
  apply (IH (S m)); [by eapply TokenInvAt_step | lia].
Qed.

End Run.

(** C1, amended.  At construction the token counts of the [N >= 1]
    prisoners add up to [2^k], [k = ceil(log2 N)].  For [N >= 2] every
    visit of a run is defined, and in every state the run goes through
    the counts of the prisoners plus the weight on the light (one unit
    [2^stage] of the coming day's stage when the light is on, nothing
    when it is off) add up to [2^k]: it is this sum, not the sum of the
    prisoners' counts alone, that no visit changes. *)
Theorem token_mass_conserved (N : Z) (draws : list Z) :
  1 <= N -> small N ->
  Z.of_nat (length draws) <= Int32.max_signed ->
  Forall (fun d => 0 <= d < N) draws ->
  total_tokens (Prison.make N) = 2 ^ k N /\
  (2 <= N ->
   length (Execution.trace draws (Prison.make (P:=t) N)) = S (length draws) /\
   forall st,
     st ∈ Execution.trace draws (Prison.make (P:=t) N) ->
     total_tokens st + offered N (Prison.day_number st) (Prison.light st)
     = 2 ^ k N).
Proof.
  intros HN Hsmall Hlen Hdraws. split.
  - destruct (decide (N = 1)) as [->|Hne]; [by vm_compute|].
    apply make_total, N_le_pow30; [lia | done].
  - intros HN2. split.
    + apply (token_trace_complete N HN2 Hsmall draws 0%nat); [|lia|done].
      intros _. split; [done|]. by apply TokenInv_make.
    + intros st Hst.
      by destruct (token_trace_inv N HN2 Hsmall draws st Hlen Hst)
        as (_ & _ & _ & _ & Hsum).
Qed.

(** C10.  For [N >= 2] within the 32-bit assumption, every visit of a run
    is defined, and in every state the run goes through: if the light is
    off the token counts of the prisoners add up to exactly [2^k]; if the
    light is on they add up to strictly less, and what is missing is the
    weight [2^stage] of the token on the light, for the stage of the
    coming day. *)
Theorem token_mass_and_light (N : Z) (draws : list Z) :
  2 <= N -> small N ->
  Z.of_nat (length draws) <= Int32.max_signed ->
  Forall (fun d => 0 <= d < N) draws ->
  length (Execution.trace draws (Prison.make (P:=t) N)) = S (length draws) /\
  forall st,
    st ∈ Execution.trace draws (Prison.make (P:=t) N) ->
    (is_on (Prison.light st) = false -> total_tokens st = 2 ^ k N) /\
    (is_on (Prison.light st) = true ->
       total_tokens st < 2 ^ k N /\
       2 ^ k N - total_tokens st = 2 ^ stage N (Prison.day_number st)).
Proof.
  intros HN Hsmall Hlen Hdraws. split.
  - apply (token_trace_complete N HN Hsmall draws 0%nat); [|lia|done].
    intros _. split; [done|]. by apply TokenInv_make.
  - intros st Hst.
    destruct (token_trace_inv N HN Hsmall draws st Hlen Hst)
      as (Hday & _ & _ & _ & Hsum).
    pose proof (pow_stage_bounds N HN Hsmall (Prison.day_number st)
                  ltac:(lia)) as Hrate.
    unfold offered in Hsum.
    split; intros Hlight; rewrite Hlight in Hsum; lia.
Qed.

(** C3, on the code.  With a single prisoner the number of stages is
    [ceil(log2 1) = 0], the first cycle is empty, and on every day
    [day >= 0] the stage computation takes the branch of the next cycles
    and divides by it: [GetStageIndex] is undefined. *)
Theorem GetStageIndex_single_prisoner (p : t) (day : Z) :
  n_prisoners p = 1 ->
  0 <= day ->
  GetClosestNotSmallerPowerOf2 (n_prisoners p) = 0 /\
  (exists q, Int32.div (Int32.sub day 0) 3 = Some q /\
             Int32.rem q (GetClosestNotSmallerPowerOf2 (n_prisoners p)) = None) /\
  GetStageIndex p day = None.
Proof.
  intros Hp Hday. rewrite Hp.
  split; [done|].
  assert (Int32.div (Int32.sub day 0) 3
          = Some (Z.quot (Int32.sub day 0) 3)) as Hdiv
    by (apply div_defined; lia).
  split; [by eexists|].
  unfold GetStageIndex. rewrite Hp.
  change (GetClosestNotSmallerPowerOf2 1) with 0.
  change (Int32.mul 1 7) with 7. change (Int32.mul 1 3) with 3.
  change (Int32.mul 0 7) with 0.
  destruct (Z.ltb_spec day 0); [lia|].
  by rewrite Hdiv.
Qed.

(** C4, on the code.  The single prisoner of a prison of one is built
    with one token, which is [2^0], and its claim test holds from the
    start; but its first visit asks for the stage of day 1, which is
    undefined, so the visit and the run are undefined: no claim is
    emitted on day 0. *)
Theorem single_prisoner_first_visit :
  GetClosestNotSmallerPowerOf2 1 = 0 /\
  n_tokens (make 0 1) = 1 /\
  ShouldClaimThatEveryoneHasBeenInTheRoom (make 0 1) = true /\
  MaybeTurnOnLight (make 0 1) (mkInput 0 (mkLight false)) = None /\
  TakeAction (make 0 1) (mkInput 0 (mkLight false)) = None /\
  Prison.NextDay 0 (Prison.make (P:=t) 1) = None /\
  Prison.Run [0] (Prison.make (P:=t) 1) = UndefinedBehaviour.
Proof. repeat split. Qed.

End TokenProofs.

(** Witness of C7: three prisoners, day 41, the last day of stage 1. *)
Lemma stage_schedule_witness :
  TokenPrisoner.GetStageIndex (TokenPrisoner.make 0 3) 41 = Some 1 /\
  TokenPrisoner.GetStageIndex (TokenPrisoner.make 0 3) 42 = Some 0 /\
  TokenPrisoner.IsLastDayOfTheStage (TokenPrisoner.make 0 3) 41 = Some true.
Proof.
  destruct (TokenProofs.stage_schedule 3 41 (TokenPrisoner.make 0 3))
    as (_ & Htoday & Htomorrow & Hlast).
  - lia.
  - by vm_compute.
  - reflexivity.
  - unfold Int32.max_signed. lia.
  - split; [exact Htoday|]. split; [exact Htomorrow | exact Hlast].
Defined.

(** The visit in order at work: a prisoner of three holding 2 tokens
    absorbs the unit on the light on day 20, the last day of stage 0, and
    offers a unit of the next stage. *)
Lemma TakeAction_in_order_witness :
  TokenPrisoner.TakeAction (TokenPrisoner.mk 0 3 2) (mkInput 20 (mkLight true))
  = Some (claim_nothing, TokenPrisoner.mk 0 3 1, mkLight true).
Proof.
  destruct (TokenProofs.TakeAction_in_order 3 20 (TokenPrisoner.mk 0 3 2)
              (mkLight true))
    as (tokens1 & signal1 & tokens2 & signal2 & Hoff & _ & Hon & _ & Hact).
  - lia.
  - by vm_compute.
  - reflexivity.
  - unfold Int32.max_signed. lia.
  - unfold Int32.min_signed, Int32.max_signed. simpl. lia.
  - injection Hoff as <- <-. injection Hon as <- <-. exact Hact.
Defined.

(** Witness of C1: three prisoners, four days. *)
Lemma token_mass_conserved_witness :
  TokenSpec.total_tokens (Prison.make 3) = 4 /\
  forall st,
    st ∈ Execution.trace [0; 1; 2; 0] (Prison.make (P:=TokenPrisoner.t) 3) ->
    TokenSpec.total_tokens st
      + TokenSpec.offered 3 (Prison.day_number st) (Prison.light st) = 4.
Proof.
  destruct (TokenProofs.token_mass_conserved 3 [0; 1; 2; 0])
    as (Hinit & Hrun).
  - lia.
  - by vm_compute.
  - unfold Int32.max_signed. simpl. lia.
  - repeat constructor; lia.
  - split; [exact Hinit|]. exact (proj2 (Hrun ltac:(lia))).
Defined.

(** Witness of C10: three prisoners, four days. *)
Lemma token_mass_and_light_witness :
  length (Execution.trace [0; 1; 2; 0] (Prison.make (P:=TokenPrisoner.t) 3))
  = 5%nat /\
  forall st,
    st ∈ Execution.trace [0; 1; 2; 0] (Prison.make (P:=TokenPrisoner.t) 3) ->
    (is_on (Prison.light st) = false -> TokenSpec.total_tokens st = 4) /\
    (is_on (Prison.light st) = true ->
       TokenSpec.total_tokens st < 4 /\
       4 - TokenSpec.total_tokens st
       = 2 ^ TokenSpec.stage 3 (Prison.day_number st)).
Proof.
  apply (TokenProofs.token_mass_and_light 3 [0; 1; 2; 0]).
  - lia.
  - by vm_compute.
  - unfold Int32.max_signed. simpl. lia.
  - repeat constructor; lia.
Defined.

(** Witness of C3: the stage asked for on the first day of a prison of one. *)
Lemma GetStageIndex_single_prisoner_witness :
  TokenPrisoner.GetStageIndex (TokenPrisoner.make 0 1) 1 = None.
Proof.
  apply (TokenProofs.GetStageIndex_single_prisoner (TokenPrisoner.make 0 1) 1);
    [reflexivity | lia].
Defined.

(** C1, as stated, fails: of two prisoners holding one token each, the one
    visited on day 0 puts its token on the light, and the counts then add up
    to 1, not to [2^1]. *)
Lemma token_sum_changes :
  TokenSpec.total_tokens (Prison.make 2) = 2 ^ TokenSpec.k 2 /\
  exists s',
    Prison.NextDay 0 (Prison.make (P:=TokenPrisoner.t) 2)
      = Some (claim_nothing, s') /\
    TokenSpec.total_tokens s' = 1 /\
    TokenSpec.total_tokens s' <> 2 ^ TokenSpec.k 2.
Proof.
  split; [reflexivity|]. eexists. split; [reflexivity|].
  split; [reflexivity | discriminate].
Qed.

(** * Further properties of the code *)

(** ** The scheduler: what a run records *)

Section SchedulerRecords.
Context {P : Type} `{PrisonerBase P}.
Implicit Types (s : Prison.t P) (draws : list Z).

Lemma NextDay_range prisoner_id s x :
  Prison.NextDay prisoner_id s = Some x ->
  0 <= prisoner_id /\
  (Z.to_nat prisoner_id
     < length (Prison.prisoners_have_been_in_the_room_indicators s))%nat /\
  (Z.to_nat prisoner_id < length (Prison.prisoners s))%nat.
Proof.
  unfold Prison.NextDay. destruct (Z.ltb_spec prisoner_id 0); [done|].
  destruct (Prison.prisoners_have_been_in_the_room_indicators s !! _)
    as [b|] eqn:Hb; [|done].
  destruct (Prison.prisoners s !! _) as [p|] eqn:Hp; [|done].
  intros _. split; [done|].
  split; [by apply lookup_lt_Some in Hb | by apply lookup_lt_Some in Hp].
Qed.

Lemma after_app draws1 draws2 s :
  Execution.after (draws1 ++ draws2) s
  = Execution.after draws1 s ≫= Execution.after draws2.
Proof.
  revert s. induction draws1 as [|d draws1 IH]; intros s; simpl; [done|].
  destruct (Prison.NextDay d s) as [[c s']|]; auto.
Qed.

Lemma Quiet_after draws s s' :
  Execution.Quiet draws s = Some s' -> Execution.after draws s = Some s'.
Proof.
  revert s. induction draws as [|d draws IH]; intros s; simpl; [done|].
  destruct (Prison.NextDay d s) as [[[] s1]|]; try done. apply IH.
Qed.

Lemma after_invariant (Inv : nat -> Prison.t P -> Prop) :
  (forall m d s c s',
     Inv m s -> Prison.NextDay d s = Some (c, s') -> Inv (S m) s') ->
  forall draws m s s',
    Inv m s -> Execution.after draws s = Some s' ->
    Inv (m + length draws)%nat s'.
Proof.
  intros Hstep draws. induction draws as [|d draws IH]; intros m s s' Hinv;
    simpl.
  - intros [= <-]. by rewrite Nat.add_0_r.
  - destruct (Prison.NextDay d s) as [[c s1]|] eqn:Hd; [|done].
    intros Hafter. replace (m + S (length draws))%nat
      with (S m + length draws)%nat by lia.
    eapply IH; [|done]. by eapply Hstep.
Qed.

Lemma after_indicators draws s s' :
  Execution.after draws s = Some s' ->
  length (Prison.prisoners_have_been_in_the_room_indicators s')
  = length (Prison.prisoners_have_been_in_the_room_indicators s) /\
  forall i,
    Prison.prisoners_have_been_in_the_room_indicators s' !! i = Some true <->
    Prison.prisoners_have_been_in_the_room_indicators s !! i = Some true \/
    ((i < length (Prison.prisoners_have_been_in_the_room_indicators s))%nat /\
     Z.of_nat i ∈ draws).
Proof.
  revert s. induction draws as [|d draws IH]; intros s; simpl.
  - intros [= <-]. split; [done|]. intros i. split; [by left|].
    intros [?|[_ Hin]]; [done|]. by apply elem_of_nil in Hin.
  - destruct (Prison.NextDay d s) as [[c s1]|] eqn:Hd; [|done].
    intros Hafter. destruct (IH s1 Hafter) as [Hlen Hiff].
    destruct (NextDay_range _ _ _ Hd) as (Hd0 & Hdlt & _).
    destruct (NextDay_day _ _ _ _ Hd) as (_ & _ & _ & _ & _ & _ & _ & Hind & _).
    rewrite Hind, length_insert in Hlen. split; [done|].
    intros i. rewrite Hiff, Hind, length_insert, elem_of_cons.
    destruct (decide (i = Z.to_nat d)) as [->|Hne].
    + rewrite list_lookup_insert_eq by done. split; [|by left].
      intros _. right. split; [done|]. left. lia.
    + rewrite list_lookup_insert_ne by done. split.
      * intros [?|[? ?]]; [by left | right; split; [done | by right]].
      * intros [?|[? [?|?]]]; [by left | lia | right; by split].
Qed.

Lemma after_day draws s s' :
  Execution.after draws s = Some s' ->
  Prison.n_prisoners s' = Prison.n_prisoners s /\
  length (Prison.prisoners s') = length (Prison.prisoners s) /\
  (Int32.min_signed <= Prison.day_number s ->
   Prison.day_number s + Z.of_nat (length draws) <= Int32.max_signed ->
   Prison.day_number s' = Prison.day_number s + Z.of_nat (length draws)).
Proof.
  revert s. induction draws as [|d draws IH]; intros s; simpl.
  - intros [= <-]. repeat split. lia.
  - destruct (Prison.NextDay d s) as [[c s1]|] eqn:Hd; [|done].
    intros Hafter. destruct (IH s1 Hafter) as (Hn & Hlen & Hday).
    destruct (NextDay_day _ _ _ _ Hd)
      as (Hd1 & Hn1 & p & p' & _ & _ & Hps & _).
    rewrite Hn, Hn1, Hlen, Hps, length_insert. repeat split.
    intros Hmin Hmax.
    rewrite add_small in Hd1
      by (unfold Int32.in_range, Int32.min_signed, Int32.max_signed in *; lia).
    rewrite Hday; lia.
Qed.

Lemma make_indicators (n : Z) (i : nat) :
  Prison.prisoners_have_been_in_the_room_indicators (Prison.make (P:=P) n) !! i
  = Some true -> False.
Proof.
  simpl. intros Hi. by apply lookup_replicate_1 in Hi as [? _].
Qed.

(** X1.  After any sequence of defined visits of a new prison of [n]
    prisoners, the VisitRecord still has [n] entries, the entry of a
    prisoner is true exactly when that prisoner is among the draws, and
    [HaveAllPrisonersBeenInTheRoom] holds exactly when every prisoner of
    [0 .. n-1] is among the draws. *)
Theorem visit_record_is_draws (n : Z) draws s :
  Execution.after draws (Prison.make (P:=P) n) = Some s ->
  length (Prison.prisoners_have_been_in_the_room_indicators s) = Z.to_nat n /\
  (forall i,
     Prison.prisoners_have_been_in_the_room_indicators s !! i = Some true <->
     (i < Z.to_nat n)%nat /\ Z.of_nat i ∈ draws) /\
  (Prison.HaveAllPrisonersBeenInTheRoom s = true <->
   forall prisoner_id, 0 <= prisoner_id < n -> prisoner_id ∈ draws).
Proof.
  intros Hafter. destruct (after_indicators _ _ _ Hafter) as [Hlen Hiff].
  simpl in Hlen. rewrite length_replicate in Hlen.
  assert (forall i,
     Prison.prisoners_have_been_in_the_room_indicators s !! i = Some true <->
     (i < Z.to_nat n)%nat /\ Z.of_nat i ∈ draws) as Hrec.
  { intros i. rewrite Hiff. simpl. rewrite length_replicate. split.
    - intros [Hi|?]; [|done]. by apply (make_indicators n i) in Hi.
    - by right. }
  split; [done|]. split; [done|].
  rewrite HaveAll_true. split.
  - intros Hall d Hd.
    destruct (lookup_lt_is_Some_2
                (Prison.prisoners_have_been_in_the_room_indicators s)
                (Z.to_nat d) ltac:(lia)) as [b Hb].
    rewrite (Hall _ _ Hb) in Hb. apply Hrec in Hb as [_ Hin].
    by rewrite Z2Nat.id in Hin by lia.
  - intros Hall i b Hb. pose proof (lookup_lt_Some _ _ _ Hb) as Hlt.
    destruct b; [done|].
    assert (Prison.prisoners_have_been_in_the_room_indicators s !! i
            = Some true) as Ht.
    { apply Hrec. split; [lia|]. apply Hall. lia. }
    congruence.
Qed.

(** X2.  The day counter counts the visits: after any sequence of defined
    visits of a new prison, as long as their number fits in 32 bits, the
    day number is the number of visits; the number of prisoners and the
    size of the vector of prisoners are never changed. *)
Theorem day_number_counts_visits (n : Z) draws s :
  Execution.after draws (Prison.make (P:=P) n) = Some s ->
  Z.of_nat (length draws) <= Int32.max_signed ->
  Prison.day_number s = Z.of_nat (length draws) /\
  Prison.n_prisoners s = n /\
  length (Prison.prisoners s) = Z.to_nat n.
Proof.
  intros Hafter Hlen. destruct (after_day _ _ _ Hafter) as (Hn & Hl & Hday).
  simpl in *. rewrite length_fmap, length_seqZ in Hl.
  split; [|done]. rewrite Hday; [lia| |lia].
  unfold Int32.min_signed. lia.
Qed.

Lemma Returned_after draws s r :
  Prison.Run draws s = Returned r ->
  exists pre prisoner_id rest s2,
    draws = pre ++ prisoner_id :: rest /\
    Execution.after (pre ++ [prisoner_id]) s = Some s2 /\
    Prison.HaveAllPrisonersBeenInTheRoom s2 = true /\
    r = Prison.day_number s2.
Proof.
  intros Hrun. pose proof (Run_cases draws s) as Hcases.
  rewrite Hrun in Hcases.
  destruct Hcases as (pre & d & rest & s1 & s2 & -> & Hq & Hstep & Hall & ->).
  exists pre, d, rest, s2. split; [done|]. split; [|done].
  rewrite after_app, (Quiet_after _ _ _ Hq). simpl. by rewrite Hstep.
Qed.

(** X3.  Whatever the strategy, when [Run] on a new prison returns a day
    count, the run has stopped at some draw, every prisoner of
    [0 .. n-1] was drawn up to and including that one, and (within 32
    bits) the day count is the number of prisoners drawn up to and
    including that one. *)
Theorem returned_run_visited_everyone (n : Z) draws (r : Z) :
  Prison.Run draws (Prison.make (P:=P) n) = Returned r ->
  exists pre prisoner_id rest,
    draws = pre ++ prisoner_id :: rest /\
    (forall i, 0 <= i < n -> i ∈ pre ++ [prisoner_id]) /\
    (Z.of_nat (length pre) < Int32.max_signed ->
     r = Z.of_nat (length pre) + 1).
Proof.
  intros Hrun.
  destruct (Returned_after _ _ _ Hrun) as (pre & d & rest & s2 & -> & Hafter & Hall & ->).
  exists pre, d, rest. split; [done|]. split.
  - destruct (after_indicators _ _ _ Hafter) as [Hlen Hiff].
    simpl in Hlen. rewrite length_replicate in Hlen.
    intros i Hi.
    destruct (lookup_lt_is_Some_2
                (Prison.prisoners_have_been_in_the_room_indicators s2)
                (Z.to_nat i) ltac:(lia)) as [b Hb].
    rewrite (proj1 (HaveAll_true s2) Hall _ _ Hb) in Hb.
    apply Hiff in Hb as [Hb|[_ Hin]].
    + by apply make_indicators in Hb.
    + by rewrite Z2Nat.id in Hin by lia.
  - intros Hlen. destruct (after_day _ _ _ Hafter) as (_ & _ & Hday).
    rewrite Hday; simpl; rewrite ?length_app; simpl;
      unfold Int32.min_signed; lia.
Qed.

End SchedulerRecords.

(** ** DedicatedCounterPrisoner: a claim is never false *)

Module CounterRuns.
Import DedicatedCounterPrisoner CounterSpec CounterProofs.

Lemma TakeAction_claim (p p' : t) (input : PrisonerInput) l' :
  TakeAction p input = (claim_that_everyone_has_been_in_the_room, p', l') ->
  prisoner_id p = 0 /\
  times_turned_off_the_light p' = Int32.sub (n_prisoners p) 1.
Proof.
  unfold TakeAction.
  destruct p as [id n has times], input as [day [on]]. simpl.
  destruct (Z.eqb_spec id 0) as [Hid|Hid].
  - unfold IsOn. destruct on; simpl.
    + destruct (Z.eqb_spec (Int32.add times 1) (Int32.sub n 1));
        intros [= <- <-]; by simpl.
    + destruct (Z.eqb_spec times (Int32.sub n 1)); intros [= <- <-]; by simpl.
  - by destruct (negb has && _).
Qed.

Lemma sumZ_eq_length {A : Type} (f : A -> Z) (l : list A) :
  (forall a, 0 <= f a <= 1) ->
  sumZ f l = Z.of_nat (length l) -> Forall (fun a => f a = 1) l.
Proof.
  intros Hf. induction l as [|a l IH]; simpl; [constructor|].
  intros Hsum.
  pose proof (sumZ_le_length f l (fun a => proj2 (Hf a))).
  pose proof (Hf a).
  constructor; [lia|]. apply IH. lia.
Qed.

Lemma CounterSafe_make (n : Z) : CounterSafe (Prison.make n).
Proof.
  intros i p Hp Hflag.
  pose proof (lookup_lt_Some _ _ _ Hp) as Hlt. simpl in Hlt.
  rewrite length_fmap, length_seqZ in Hlt.
  rewrite make_lookup in Hp by done. by injection Hp as <-.
Qed.

Lemma CounterSafe_step d s c s' :
  CounterSafe s -> Prison.NextDay d s = Some (c, s') -> CounterSafe s'.
Proof.
  intros Hsafe Hstep i q Hq Hflag.
  destruct (NextDay_day _ _ _ _ Hstep)
    as (_ & _ & p & p' & Hp & _ & Hps & Hind & Hlt).
  rewrite Hind. rewrite Hps in Hq.
  destruct (decide (i = Z.to_nat d)) as [->|Hne].
  - by rewrite list_lookup_insert_eq.
  - rewrite list_lookup_insert_ne in Hq by done.
    rewrite list_lookup_insert_ne by done. exact (Hsafe i q Hq Hflag).
Qed.

(** What the state is like right after a claim. *)
Lemma claim_state n d s s' :
  1 <= n <= Int32.max_signed ->
  CounterInv n s ->
  Prison.NextDay d s = Some (claim_that_everyone_has_been_in_the_room, s') ->
  d = 0 /\
  exists l, leader s' = Some l /\
    times_turned_off_the_light l = n - 1 /\
    sumZ flag (Prison.prisoners s') = n - 1.
Proof.
  intros Hn Hinv Hstep.
  pose proof (CounterInv_step n d s _ s' Hn Hinv Hstep)
    as (_ & _ & _ & l & Hl & _ & Hsum).
  destruct (NextDay_range _ _ _ Hstep) as (Hd0 & _ & _).
  destruct (NextDay_day _ _ _ _ Hstep)
    as (_ & _ & p & p' & Hp & Hact & Hps & _ & _).
  simpl in Hact. injection Hact as Hact.
  destruct (TakeAction_claim _ _ _ _ Hact) as [Hid Htimes].
  destruct (TakeAction_effect _ _ _ _ _ Hact) as (_ & _ & Hlead & _).
  destruct (Hlead Hid) as (_ & _ & Hpend).
  destruct Hinv as (_ & _ & Hids & _).
  destruct (Hids _ _ Hp) as [Hidp Hnp].
  assert (d = 0) as -> by lia.
  split; [done|]. exists l. split; [done|].
  unfold leader in Hl. rewrite Hps in Hl. simpl in Hl.
  rewrite list_lookup_insert_eq in Hl by (by apply lookup_lt_Some in Hp).
  injection Hl as <-.
  rewrite Hnp in Htimes.
  rewrite sub_small in Htimes
    by (unfold Int32.in_range, Int32.min_signed, Int32.max_signed in *; lia).
  split; [done|]. rewrite <- Hsum, Hpend. lia.
Qed.

Lemma claim_all_visited n d s s' :
  1 <= n <= Int32.max_signed ->
  CounterInv n s -> CounterSafe s ->
  Prison.NextDay d s = Some (claim_that_everyone_has_been_in_the_room, s') ->
  Prison.HaveAllPrisonersBeenInTheRoom s' = true.
Proof.
  intros Hn Hinv Hsafe Hstep.
  destruct (claim_state n d s s' Hn Hinv Hstep) as (-> & l & Hl & _ & Hsum).
  pose proof (CounterInv_step n 0 s _ s' Hn Hinv Hstep)
    as (Hlen & Hlen2 & _ & l2 & Hl2 & Hflag & _).
  rewrite Hl in Hl2. injection Hl2 as <-.
  pose proof (CounterSafe_step 0 s _ s' Hsafe Hstep) as Hsafe'.
  destruct (NextDay_day _ _ _ _ Hstep)
    as (_ & _ & _ & _ & _ & _ & _ & Hind & Hlt).
  apply HaveAll_true. intros i b Hb.
  pose proof (lookup_lt_Some _ _ _ Hb) as Hi.
  destruct i as [|i].
  - rewrite Hind, list_lookup_insert_eq in Hb by done. congruence.
  - destruct (lookup_lt_is_Some_2 (Prison.prisoners s') (S i) ltac:(lia))
      as [q Hq].
    rewrite (Hsafe' _ _ Hq) in Hb; [congruence|].
    unfold leader in Hl.
    destruct (Prison.prisoners s') as [|l0 tl] eqn:Hps; [done|].
    simpl in Hl, Hq, Hsum, Hlen. injection Hl as ->.
    assert (flag l = 0) as Hfl by (unfold flag; by rewrite Hflag).
    assert (Forall (fun a => flag a = 1) tl) as Hall.
    { apply sumZ_eq_length; [apply flag_bounds | lia]. }
    pose proof (Forall_lookup_1 _ _ _ _ Hall Hq) as Hone.
    unfold flag in Hone. by destruct (has_turned_on_the_light q).
Qed.

Lemma CounterRunInv_make n : 1 <= n -> CounterRunInv n 0 (Prison.make n).
Proof.
  intros Hn. split; [by apply CounterInv_make|].
  split; [apply CounterSafe_make|]. intros _. split; [done|].
  exists (make 0 n). unfold leader. rewrite make_lookup by lia.
  split; [done|].
  change (Prison.prisoners (Prison.make n))
    with ((fun i => make i n) <$> seqZ 0 n).
  by rewrite sumZ_fmap_zero.
Qed.

Lemma CounterRunInv_step n m d s c s' :
  1 <= n <= Int32.max_signed ->
  CounterRunInv n m s -> Prison.NextDay d s = Some (c, s') ->
  CounterRunInv n (S m) s'.
Proof.
  intros Hn (Hinv & Hsafe & Hcost) Hstep.
  pose proof (CounterInv_step n d s c s' Hn Hinv Hstep) as Hinv'.
  split; [done|]. split; [by eapply CounterSafe_step|].
  intros Hm. destruct (Hcost ltac:(lia)) as (Hday & l & Hl & Hle).
  pose proof (CounterInv_bound n s l ltac:(lia) Hinv Hl) as Hb.
  destruct (NextDay_day _ _ _ _ Hstep)
    as (Hday' & _ & p & p' & Hp & Hact & Hps & _ & _).
  rewrite add_small in Hday'
    by (unfold Int32.in_range, Int32.min_signed, Int32.max_signed in *; lia).
  split; [lia|].
  simpl in Hact. injection Hact as Hact.
  apply TakeAction_effect in Hact as (_ & _ & Hlead & Hother).
  simpl in Hlead, Hother.
  destruct Hinv as (_ & _ & Hids & _).
  destruct (Hids _ _ Hp) as [Hid _].
  pose proof (lookup_lt_Some _ _ _ Hp) as Hlt.
  unfold CounterCost, leader in *. rewrite Hps, Hday'.
  rewrite (sumZ_insert flag _ _ p p' Hp).
  destruct (decide (prisoner_id p = 0)) as [Hz|Hnz].
  - assert (Z.to_nat d = 0%nat) as Hd0 by lia.
    rewrite Hd0 in *. rewrite Hp in Hl. injection Hl as <-.
    destruct (Hlead Hz) as (Hhas & Htimes & _).
    exists p'. rewrite list_lookup_insert_eq by done. split; [done|].
    assert (flag p' = flag p) as Hflag by (unfold flag; by rewrite Hhas).
    rewrite Htimes. unfold pending in Hb.
    destruct (is_on (Prison.light s)); [|lia].
    rewrite add_small; [lia|].
    unfold Int32.in_range, Int32.min_signed, Int32.max_signed in *. lia.
  - assert (Z.to_nat d <> 0%nat) as Hd0 by lia.
    destruct (Hother Hnz) as (_ & Hflag).
    exists l. rewrite list_lookup_insert_ne by done. split; [done|].
    unfold pending in Hflag.
    destruct (is_on (Prison.light s')), (is_on (Prison.light s)); lia.
Qed.

Lemma Quiet_CounterRunInv n pre s1 :
  1 <= n <= Int32.max_signed ->
  Execution.Quiet pre (Prison.make n) = Some s1 ->
  CounterRunInv n (length pre) s1.
Proof.
  intros Hn Hq. apply Quiet_after in Hq.
  apply (after_invariant (CounterRunInv n)
           (fun m d s c s' => CounterRunInv_step n m d s c s' Hn)
           pre 0%nat _ s1 (CounterRunInv_make n ltac:(lia)) Hq).
Qed.

(** The possible endings of a run of dedicated-counter prisoners. *)
Lemma counter_Run_cases n draws :
  1 <= n <= Int32.max_signed ->
  Forall (fun d => 0 <= d < n) draws ->
  Prison.Run draws (Prison.make (P:=t) n) = StillRunning \/
  exists pre rest s2,
    draws = pre ++ 0 :: rest /\
    Prison.Run draws (Prison.make (P:=t) n) = Returned (Prison.day_number s2) /\
    CounterRunInv n (S (length pre)) s2 /\
    exists l, leader s2 = Some l /\
      times_turned_off_the_light l = n - 1 /\
      sumZ flag (Prison.prisoners s2) = n - 1.
Proof.
  intros Hn Hdraws.
  pose proof (Run_cases draws (Prison.make (P:=t) n)) as Hcases.
  destruct (Prison.Run draws (Prison.make n)) as [r| | |] eqn:Hrun.
  - right.
    destruct Hcases as (pre & d & rest & s1 & s2 & -> & Hq & Hstep & _ & ->).
    pose proof (Quiet_CounterRunInv n pre s1 Hn Hq) as Hinv1.
    pose proof (CounterRunInv_step n _ d s1 _ s2 Hn Hinv1 Hstep) as Hinv2.
    destruct Hinv1 as (Hinv1 & _).
    destruct (claim_state n d s1 s2 Hn Hinv1 Hstep) as (-> & Hl).
    by exists pre, rest, s2.
  - exfalso.
    destruct Hcases as (pre & d & rest & s1 & s2 & -> & Hq & Hstep & Hall).
    destruct (Quiet_CounterRunInv n pre s1 Hn Hq) as (Hinv1 & Hsafe1 & _).
    rewrite (claim_all_visited n d s1 s2 Hn Hinv1 Hsafe1 Hstep) in Hall.
    done.
  - exfalso.
    destruct Hcases as (pre & d & rest & s1 & -> & Hq & Hstep).
    destruct (Quiet_CounterRunInv n pre s1 Hn Hq) as ((Hl1 & Hl2 & _) & _).
    apply Forall_app in Hdraws as [_ Hd].
    apply Forall_cons in Hd as [Hd _].
    destruct (NextDay_defined d s1) as [x Hx]; [lia..|]. congruence.
  - by left.
Qed.


(** X5.  A run of [n >= 1] dedicated-counter prisoners that returns has
    ended on a visit of the leader, and the day count it returns is at
    least [2 * (n - 1)] (a day for each signal raised and a day for each
    signal counted), at least 1, and at most the number of draws. *)
Theorem counter_run_length (n : Z) (draws : list Z) (r : Z) :
  1 <= n <= Int32.max_signed ->
  Forall (fun d => 0 <= d < n) draws ->
  Z.of_nat (length draws) <= Int32.max_signed ->
  Prison.Run draws (Prison.make (P:=t) n) = Returned r ->
  (exists pre rest,
     draws = pre ++ 0 :: rest /\ r = Z.of_nat (length pre) + 1) /\
  2 * (n - 1) <= r /\
  1 <= r <= Z.of_nat (length draws).
Proof.
  intros Hn Hdraws Hlen Hrun.
  destruct (counter_Run_cases n draws Hn Hdraws)
    as [Hstill|(pre & rest & s2 & -> & Hrun' & (_ & _ & Hcost) & l & Hl & Ht & Hs)];
    [congruence|].
  rewrite Hrun in Hrun'. injection Hrun' as ->.
  rewrite length_app in Hlen. simpl in Hlen.
  destruct (Hcost ltac:(lia)) as (Hday & l' & Hl' & Hle).
  rewrite Hl in Hl'. injection Hl' as <-.
  rewrite length_app. simpl.
  split; [exists pre, rest; split; [done | lia] | lia].
Qed.

Lemma Run_cons_nothing {P : Type} `{PrisonerBase P}
    (d : Z) (draws : list Z) (s s' : Prison.t P) :
  Prison.NextDay d s = Some (claim_nothing, s') ->
  Prison.Run (d :: draws) s = Prison.Run draws s'.
Proof. intros Hstep. simpl. by rewrite Hstep. Qed.

(** One round of the relay: prisoner [j + 1] finds the light off and turns
    it on, then the leader turns it off and counts it. *)
Lemma relay_round n j s :
  2 <= n -> 2 * (n - 1) <= Int32.max_signed ->
  0 <= j < n - 1 ->
  CounterInv n s -> Relayed n j s ->
  exists s1 s2,
    Prison.NextDay (j + 1) s = Some (claim_nothing, s1) /\
    Prison.NextDay 0 s1
      = Some (if j + 1 =? n - 1
              then claim_that_everyone_has_been_in_the_room
              else claim_nothing, s2) /\
    Relayed n (j + 1) s2.
Proof.
  intros Hn Hmax Hj Hinv (Hday & Hoff & (l & Hl & Htimes) & Hfresh).
  destruct Hinv as (Hlen & Hlen2 & Hids & _).
  unfold leader in Hl.
  destruct (Hids _ _ Hl) as [Hid0 Hnl]. simpl in Hid0.
  pose proof (Hfresh (j + 1) ltac:(lia)) as Hp.
  assert (Z.to_nat (j + 1) <> 0%nat) as Hne by lia.
  assert (TakeAction (make (j + 1) n)
            (mkInput (Prison.day_number s) (Prison.light s))
          = (claim_nothing, mk (j + 1) n true 0, mkLight true)) as Hact1.
  { unfold TakeAction, make, IsOff, IsOn. simpl.
    destruct (Z.eqb_spec (j + 1) 0); [lia|]. by rewrite Hoff. }
  assert (TakeAction l
            (mkInput (Int32.add (Prison.day_number s) 1) (mkLight true))
          = (if j + 1 =? n - 1
             then claim_that_everyone_has_been_in_the_room
             else claim_nothing, set_times l (j + 1), mkLight false)) as Hact2.
  { unfold TakeAction, IsOn. simpl. rewrite Hid0. simpl.
    rewrite Htimes, Hnl.
    rewrite add_small, sub_small
      by (unfold Int32.in_range, Int32.min_signed, Int32.max_signed in *; lia).
    by destruct (j + 1 =? n - 1). }
  eexists _, _. split; [|split].
  - rewrite (NextDay_unfold s (j + 1) _ ltac:(lia) ltac:(lia) Hp).
    simpl. rewrite Hact1. reflexivity.
  - rewrite (NextDay_unfold _ 0 l ltac:(lia)); simpl.
    + rewrite Hact2. reflexivity.
    + rewrite length_insert. lia.
    + by rewrite list_lookup_insert_ne.
  - unfold Relayed, leader. simpl. split; [|split; [done|split]].
    + rewrite Hday.
      rewrite !add_small
        by (rewrite ?add_small;
            unfold Int32.in_range, Int32.min_signed, Int32.max_signed in *; lia).
      lia.
    + exists (set_times l (j + 1)). split; [|done].
      apply list_lookup_insert_eq. rewrite length_insert. lia.
    + intros i Hi.
      rewrite !list_lookup_insert_ne by lia. apply Hfresh. lia.
Qed.

Lemma relay_Run n rounds :
  2 <= n -> 2 * (n - 1) <= Int32.max_signed ->
  forall j s,
    0 <= j -> j + Z.of_nat (S rounds) = n - 1 ->
    CounterInv n s -> CounterSafe s -> Relayed n j s ->
    Prison.Run (relay j (S rounds)) s = Returned (2 * (n - 1)).
Proof.
  intros Hn Hmax.
  assert (1 <= n <= Int32.max_signed) as Hn1 by lia.
  induction rounds as [|rounds IH]; intros j s Hj Hsum Hinv Hsafe Hrel.
  - destruct (relay_round n j s Hn Hmax ltac:(lia) Hinv Hrel)
      as (s1 & s2 & H1 & H2 & (Hday & _)).
    destruct (Z.eqb_spec (j + 1) (n - 1)); [|lia].
    change (relay j 1) with ((j + 1) :: [] ++ 0 :: []).
    rewrite (Run_cons_nothing _ _ _ _ H1).
    rewrite (Run_claim [] 0 [] s1 s1 s2 eq_refl H2).
    rewrite (claim_all_visited n 0 s1 s2 Hn1); [| |by eapply CounterSafe_step|done].
    + f_equal. lia.
    + by eapply CounterInv_step.
  - destruct (relay_round n j s Hn Hmax ltac:(lia) Hinv Hrel)
      as (s1 & s2 & H1 & H2 & Hrel2).
    destruct (Z.eqb_spec (j + 1) (n - 1)); [lia|].
    change (relay j (S (S rounds)))
      with ((j + 1) :: 0 :: relay (j + 1) (S rounds)).
    rewrite (Run_cons_nothing _ _ _ _ H1), (Run_cons_nothing _ _ _ _ H2).
    apply IH; [lia|lia| | |done].
    + eapply CounterInv_step; [done| |exact H2].
      by eapply CounterInv_step.
    + eapply CounterSafe_step; [|exact H2]. by eapply CounterSafe_step.
Qed.

(** X6.  For every [n >= 2] there is a schedule on which the run of
    dedicated-counter prisoners returns, and it returns the least day
    count a run can return: when the prisoners 1, 2, ..., n-1 come in
    turn, each followed by the leader, [Run] returns [2 * (n - 1)]. *)
Theorem relay_returns (n : Z) :
  2 <= n -> 2 * (n - 1) <= Int32.max_signed ->
  Prison.Run (relay 0 (Z.to_nat (n - 1))) (Prison.make (P:=t) n)
  = Returned (2 * (n - 1)).
Proof.
  intros Hn Hmax.
  replace (Z.to_nat (n - 1)) with (S (Z.to_nat (n - 2))) by lia.
  apply relay_Run; [done|done|lia|lia| | |].
  - apply CounterInv_make. lia.
  - apply CounterSafe_make.
  - unfold Relayed, leader. split; [done|]. split; [done|]. split.
    + exists (make 0 n). by rewrite make_lookup by lia.
    + intros i Hi. rewrite make_lookup by lia. simpl.
      by rewrite Z2Nat.id by lia.
Qed.

End CounterRuns.

(** Witness of X1: three token prisoners, three visits, prisoner 1 is
    never drawn. *)
Lemma visit_record_is_draws_witness :
  exists s,
    Execution.after [2; 0; 2] (Prison.make (P:=TokenPrisoner.t) 3) = Some s /\
    (Prison.HaveAllPrisonersBeenInTheRoom s = true <->
     forall prisoner_id, 0 <= prisoner_id < 3 -> prisoner_id ∈ [2; 0; 2]).
Proof.
  eexists. split; [reflexivity|].
  refine (proj2 (proj2 (visit_record_is_draws (P:=TokenPrisoner.t)
                          3 [2; 0; 2] _ _))).
  reflexivity.
Defined.

(** Witness of X2: three token prisoners, three visits. *)
Lemma day_number_counts_visits_witness :
  exists s,
    Execution.after [2; 0; 2] (Prison.make (P:=TokenPrisoner.t) 3) = Some s /\
    Prison.day_number s = 3.
Proof.
  eexists. split; [reflexivity|].
  refine (proj1 (day_number_counts_visits (P:=TokenPrisoner.t)
                   3 [2; 0; 2] _ _ _)).
  - reflexivity.
  - unfold Int32.max_signed. simpl. lia.
Defined.

(** Witness of X3: two dedicated-counter prisoners, the run returns on the
    second day. *)
Lemma returned_run_visited_everyone_witness :
  exists pre prisoner_id rest,
    [1; 0; 1] = pre ++ prisoner_id :: rest /\
    (forall i, 0 <= i < 2 -> i ∈ pre ++ [prisoner_id]).
Proof.
  assert (Prison.Run [1; 0; 1] (Prison.make (P:=DedicatedCounterPrisoner.t) 2)
          = Returned 2) as Hrun by reflexivity.
  destruct (returned_run_visited_everyone 2 [1; 0; 1] 2 Hrun)
    as (pre & d & rest & Heq & Hall & _).
  by exists pre, d, rest.
Defined.


(** Witness of X5: three prisoners, a run of six days. *)
Lemma counter_run_length_witness :
  2 * (3 - 1) <= 6 /\ 1 <= 6 <= Z.of_nat (length [0; 1; 0; 1; 2; 0; 1]).
Proof.
  refine (proj2 (CounterRuns.counter_run_length 3 [0; 1; 0; 1; 2; 0; 1] 6
                   _ _ _ _)).
  - unfold Int32.max_signed. lia.
  - repeat constructor; lia.
  - unfold Int32.max_signed. simpl. lia.
  - reflexivity.
Defined.

(** Witness of X6: four prisoners. *)
Lemma relay_returns_witness :
  Prison.Run [1; 0; 2; 0; 3; 0] (Prison.make (P:=DedicatedCounterPrisoner.t) 4)
  = Returned 6.
Proof.
  apply (CounterRuns.relay_returns 4); [lia | unfold Int32.max_signed; lia].
Defined.

(** ** TokenPrisoner: a claim is never false *)

Module TokenRuns.
Import TokenPrisoner TokenSpec TokenProofs.

Lemma sumZ_two {A : Type} (f : A -> Z) (l : list A) (i j : nat) (x y : A) :
  Forall (fun a => 0 <= f a) l ->
  i <> j -> l !! i = Some x -> l !! j = Some y ->
  f x + f y <= sumZ f l.
Proof.
  intros Hpos. revert i j.
  induction Hpos as [|a l Ha Hl IH]; intros [|i] [|j] Hne Hi Hj;
    simpl in *; try done.
  - injection Hi as ->. pose proof (sumZ_lookup_le f l j y Hl Hj). lia.
  - injection Hj as ->. pose proof (sumZ_lookup_le f l i x Hl Hi). lia.
  - pose proof (IH i j ltac:(lia) Hi Hj). lia.
Qed.

Lemma visit_claim (N day tokens : Z) (signal : bool) :
  (visit N day tokens signal).1.1 = claim_that_everyone_has_been_in_the_room ->
  (visit N day tokens signal).1.2 = 2 ^ k N.
Proof.
  unfold visit.
  destruct (maybe_turn_off N day tokens signal) as [tokens1 signal1].
  destruct (maybe_turn_on N day tokens1 signal1) as [tokens2 signal2]. simpl.
  by destruct (Z.eqb_spec tokens2 (2 ^ k N)).
Qed.

Lemma TokenFresh_make (N : Z) : TokenFresh (Prison.make N).
Proof.
  intros i p Hp _.
  pose proof (lookup_lt_Some _ _ _ Hp) as Hlt. simpl in Hlt.
  rewrite length_fmap, length_seqZ in Hlt.
  rewrite CounterProofs.make_lookup in Hp by done.
  injection Hp as <-. simpl. destruct (_ <? _); lia.
Qed.

Lemma TokenFresh_step d s c s' :
  TokenFresh s -> Prison.NextDay d s = Some (c, s') -> TokenFresh s'.
Proof.
  intros Hfresh Hstep i q Hq Hind.
  destruct (NextDay_day _ _ _ _ Hstep)
    as (_ & _ & p & p' & Hp & _ & Hps & Hind' & Hlt).
  rewrite Hind' in Hind. rewrite Hps in Hq.
  destruct (decide (i = Z.to_nat d)) as [->|Hne].
  - by rewrite list_lookup_insert_eq in Hind.
  - rewrite list_lookup_insert_ne in Hq by done.
    rewrite list_lookup_insert_ne in Hind by done.
    exact (Hfresh i q Hq Hind).
Qed.

Section Run.
Variable N : Z.
Hypothesis N_ge_2 : 2 <= N.
Hypothesis N_small : small N.

Lemma TokenRunInv_make : TokenRunInv N 0 (Prison.make N).
Proof.
  intros _. split; [done|].
  split; [by apply TokenInv_make | apply TokenFresh_make].
Qed.

Lemma TokenRunInv_step m d s c s' :
  TokenRunInv N m s -> Prison.NextDay d s = Some (c, s') ->
  TokenRunInv N (S m) s'.
Proof.
  intros Hinv Hstep Hm.
  destruct (Hinv ltac:(lia)) as (Hday & Hs & Hfresh).
  destruct (TokenInv_step N N_ge_2 N_small d s s' c Hs ltac:(lia) Hstep)
    as [Hs' Hday'].
  split; [lia|]. split; [done | by eapply TokenFresh_step].
Qed.

(** Whoever holds [2^k] tokens holds them all. *)
Lemma full_holder (s : Prison.t t) (i : nat) (p : t) :
  TokenInv N s -> 0 <= Prison.day_number s ->
  Prison.prisoners s !! i = Some p ->
  n_tokens p = 2 ^ k N ->
  is_on (Prison.light s) = false /\
  forall j q, j <> i -> Prison.prisoners s !! j = Some q -> n_tokens q = 0.
Proof.
  intros (_ & _ & Hall & Hsum) Hday Hp Hfull.
  assert (Forall (fun q => 0 <= n_tokens q) (Prison.prisoners s)) as Hpos.
  { eapply Forall_impl; [exact Hall|]. by intros q [_ ?]. }
  pose proof (sumZ_lookup_le n_tokens _ i p Hpos Hp) as Hle.
  pose proof (pow_stage_bounds N N_ge_2 N_small (Prison.day_number s) Hday)
    as Hrate.
  unfold total_tokens, offered in Hsum.
  split.
  - destruct (is_on (Prison.light s)); [lia | done].
  - intros j q Hne Hq.
    pose proof (sumZ_two n_tokens _ i j p q Hpos ltac:(done) Hp Hq).
    pose proof (Forall_lookup_1 _ _ _ _ Hpos Hq). simpl in *.
    destruct (is_on (Prison.light s)); lia.
Qed.

Lemma token_claim_all_visited d s s' :
  TokenInv N s -> TokenFresh s ->
  0 <= Prison.day_number s < Int32.max_signed ->
  Prison.NextDay d s = Some (claim_that_everyone_has_been_in_the_room, s') ->
  Prison.HaveAllPrisonersBeenInTheRoom s' = true.
Proof.
  intros Hinv Hfresh Hday Hstep.
  destruct (TokenInv_step N N_ge_2 N_small d s s' _ Hinv Hday Hstep)
    as [Hinv' Hday'].
  pose proof (TokenFresh_step d s _ s' Hfresh Hstep) as Hfresh'.
  destruct (NextDay_day _ _ _ _ Hstep)
    as (_ & _ & p & p' & Hp & Hact & Hps & Hind & Hlt).
  destruct (tokens_bounds N N_ge_2 N_small s _ p Hinv ltac:(lia) Hp)
    as [HpN Htok].
  simpl in Hact.
  rewrite (TakeAction_eq_visit N N_ge_2 N_small) in Hact;
    [|done|done|unfold Int32.min_signed, Int32.max_signed; lia].
  injection Hact as Hc Hp' _.
  apply visit_claim in Hc.
  pose proof (lookup_lt_Some _ _ _ Hp) as Hltp.
  assert (Prison.prisoners s' !! Z.to_nat d = Some p') as Hp's
    by (rewrite Hps; by apply list_lookup_insert_eq).
  assert (n_tokens p' = 2 ^ k N) as Hfull by (by rewrite <- Hp').
  destruct (full_holder s' _ p' Hinv' ltac:(lia) Hp's Hfull) as [_ Hzero].
  pose proof Hinv' as (Hlen & Hlen2 & _).
  apply HaveAll_true. intros i b Hb.
  pose proof (lookup_lt_Some _ _ _ Hb) as Hi.
  destruct (decide (i = Z.to_nat d)) as [->|Hne].
  - rewrite Hind, list_lookup_insert_eq in Hb by done. congruence.
  - destruct (lookup_lt_is_Some_2 (Prison.prisoners s') i ltac:(lia))
      as [q Hq].
    destruct b; [done|].
    pose proof (Hfresh' i q Hq Hb). pose proof (Hzero i q Hne Hq). lia.
Qed.

Lemma Quiet_TokenRunInv pre s1 :
  Execution.Quiet pre (Prison.make N) = Some s1 ->
  TokenRunInv N (length pre) s1.
Proof.
  intros Hq. apply Quiet_after in Hq.
  apply (after_invariant (TokenRunInv N) TokenRunInv_step
           pre 0%nat _ s1 TokenRunInv_make Hq).
Qed.

Lemma token_Run_cases draws :
  Z.of_nat (length draws) <= Int32.max_signed ->
  Forall (fun d => 0 <= d < N) draws ->
  Prison.Run draws (Prison.make (P:=t) N) = StillRunning \/
  exists r, Prison.Run draws (Prison.make (P:=t) N) = Returned r.
Proof.
  intros Hlen Hdraws.
  pose proof (Run_cases draws (Prison.make (P:=t) N)) as Hcases.
  destruct (Prison.Run draws (Prison.make N)) as [r| | |] eqn:Hrun.
  - right. by exists r.
  - exfalso.
    destruct Hcases as (pre & d & rest & s1 & s2 & -> & Hq & Hstep & Hall).
    rewrite length_app in Hlen. simpl in Hlen.
    destruct (Quiet_TokenRunInv pre s1 Hq ltac:(lia)) as (Hday & Hinv & Hfresh).
    rewrite (token_claim_all_visited d s1 s2 Hinv Hfresh ltac:(lia) Hstep)
      in Hall. done.
  - exfalso.
    destruct Hcases as (pre & d & rest & s1 & -> & Hq & Hstep).
    rewrite length_app in Hlen. simpl in Hlen.
    destruct (Quiet_TokenRunInv pre s1 Hq ltac:(lia)) as (Hday & Hinv & _).
    apply Forall_app in Hdraws as [_ Hd].
    apply Forall_cons in Hd as [Hd _].
    destruct (token_NextDay_defined N N_ge_2 N_small d s1 Hinv ltac:(lia) Hd)
      as [x Hx]. congruence.
  - by left.
Qed.

End Run.

(** X7.  A run of [N >= 2] token prisoners, within the 32-bit assumption,
    never makes a false claim and never runs into undefined behaviour:
    whatever the draws, [Run] either is still looping when the draws are
    used up or returns a day count. *)
Theorem token_never_claims_falsely (N : Z) (draws : list Z) :
  2 <= N -> small N ->
  Z.of_nat (length draws) <= Int32.max_signed ->
  Forall (fun d => 0 <= d < N) draws ->
  Prison.Run draws (Prison.make (P:=t) N) = StillRunning \/
  exists r, Prison.Run draws (Prison.make (P:=t) N) = Returned r.
Proof. intros HN Hsmall. by apply token_Run_cases. Qed.

(** X8.  In every state of a run of [N >= 2] token prisoners, a prisoner
    that holds [2^k] tokens (the count at which it claims) holds all of
    them: the light is off and every other prisoner holds none. *)
Theorem token_full_holder_has_all (N : Z) (draws : list Z)
    (st : Prison.t t) (i : nat) (p : t) :
  2 <= N -> small N ->
  Z.of_nat (length draws) <= Int32.max_signed ->
  st ∈ Execution.trace draws (Prison.make (P:=t) N) ->
  Prison.prisoners st !! i = Some p ->
  n_tokens p = 2 ^ k N ->
  is_on (Prison.light st) = false /\
  forall j q, j <> i -> Prison.prisoners st !! j = Some q -> n_tokens q = 0.
Proof.
  intros HN Hsmall Hlen Hst Hp Hfull.
  destruct (token_trace_inv N HN Hsmall draws st Hlen Hst) as [Hday Hinv].
  by apply (full_holder N HN Hsmall st i p Hinv ltac:(lia)).
Qed.

(** X9.  In every state of a run of [N >= 2] token prisoners, the token
    count of every prisoner lies between 0 and [2^k], so that no addition
    or subtraction of the protocol leaves the 32-bit range. *)
Theorem token_counts_bounded (N : Z) (draws : list Z)
    (st : Prison.t t) (i : nat) (p : t) :
  2 <= N -> small N ->
  Z.of_nat (length draws) <= Int32.max_signed ->
  st ∈ Execution.trace draws (Prison.make (P:=t) N) ->
  Prison.prisoners st !! i = Some p ->
  n_prisoners p = N /\
  0 <= n_tokens p <= 2 ^ k N /\ 2 ^ k N < 2 * N /\ 2 ^ k N <= 2 ^ 29.
Proof.
  intros HN Hsmall Hlen Hst Hp.
  destruct (token_trace_inv N HN Hsmall draws st Hlen Hst)
    as (Hday & _ & _ & Hall & Hsum).
  destruct (Forall_lookup_1 _ _ _ _ Hall Hp) as [HpN Hp0].
  pose proof (offered_nonneg N HN Hsmall (Prison.day_number st)
                (Prison.light st) ltac:(lia)).
  assert (n_tokens p <= total_tokens st).
  { apply (sumZ_lookup_le n_tokens _ i); [|done].
    eapply Forall_impl; [exact Hall|]. by intros q [_ ?]. }
  pose proof (pow_k_bounds N HN).
  assert (2 ^ k N <= 2 ^ 29).
  { apply Z.pow_le_mono_r; [lia|]. apply (k_le_29 N HN Hsmall). }
  repeat split; lia.
Qed.

End TokenRuns.

(** ** TokenPrisoner: the shape of the stage schedule *)

Module TokenSchedule.
Import TokenPrisoner TokenSpec TokenProofs.

Lemma div_succ (a b : Z) :
  0 <= a -> 0 < b ->
  (a + 1) / b = if (a + 1) mod b =? 0 then a / b + 1 else a / b.
Proof.
  intros Ha Hb.
  pose proof (Z.div_mod a b ltac:(lia)) as Hdm.
  pose proof (Z.mod_pos_bound a b Hb) as Hr.
  destruct (decide (a mod b = b - 1)) as [Hlast|Hlast].
  - assert (a + 1 = b * (a / b + 1) + 0) as Heq by lia.
    rewrite <- (Z.mod_unique (a + 1) b (a / b + 1) 0 ltac:(lia) Heq).
    simpl. symmetry. by apply Z.div_unique with (r := 0); [lia|].
  - assert (a + 1 = b * (a / b) + (a mod b + 1)) as Heq by lia.
    rewrite <- (Z.mod_unique (a + 1) b (a / b) (a mod b + 1) ltac:(lia) Heq).
    destruct (Z.eqb_spec (a mod b + 1) 0); [lia|].
    symmetry. by apply Z.div_unique with (r := a mod b + 1); [lia|].
Qed.

Lemma mod_succ_ne (q K : Z) : 0 <= q -> 2 <= K -> (q + 1) mod K <> q mod K.
Proof.
  intros Hq HK Heq.
  pose proof (Z.div_mod (q + 1) K ltac:(lia)).
  pose proof (Z.div_mod q K ltac:(lia)).
  assert (K * ((q + 1) / K - q / K) = 1) by lia.
  destruct (Z.le_gt_cases ((q + 1) / K - q / K) 0); nia.
Qed.

Section Blocks.
Variable N : Z.
Hypothesis N_ge_2 : 2 <= N.

Lemma stage_first_cycle (j day : Z) :
  0 <= j < k N ->
  j * (7 * N) <= day < (j + 1) * (7 * N) ->
  stage N day = j.
Proof.
  intros Hj Hday. unfold stage.
  destruct (Z.ltb_spec day (k N * 7 * N)); [|nia].
  symmetry. apply Z.div_unique with (r := day - j * (7 * N)); lia.
Qed.

Lemma stage_next_cycles (c j day : Z) :
  0 <= c -> 0 <= j < k N ->
  k N * 7 * N + (c * k N + j) * (3 * N) <= day
    < k N * 7 * N + (c * k N + j + 1) * (3 * N) ->
  stage N day = j.
Proof.
  intros Hc Hj Hday. unfold stage.
  assert (0 <= c * k N) by (apply Z.mul_nonneg_nonneg; lia).
  assert (0 <= (c * k N + j) * (3 * N))
    by (apply Z.mul_nonneg_nonneg; lia).
  destruct (Z.ltb_spec day (k N * 7 * N)); [lia|].
  assert ((day - k N * 7 * N) / (3 * N) = c * k N + j) as ->.
  { symmetry.
    apply Z.div_unique
      with (r := day - k N * 7 * N - (c * k N + j) * (3 * N)); lia. }
  symmetry. apply Z.mod_unique with (q := c); lia.
Qed.

Lemma last_day_block_start (day : Z) :
  0 <= day ->
  last_day_of_stage N day = block_start N (day + 1) && (2 <=? k N).
Proof.
  intros Hday. pose proof (k_pos N N_ge_2) as HK.
  unfold last_day_of_stage, stage, block_start.
  destruct (Z.ltb_spec (day + 1) (k N * 7 * N)) as [H1|H1].
  - destruct (Z.ltb_spec day (k N * 7 * N)); [|lia].
    pose proof (div_succ day (7 * N) Hday ltac:(lia)) as Hsucc.
    assert ((day + 1) / (7 * N) < k N) by (apply Z.div_lt_upper_bound; lia).
    assert (0 <= day / (7 * N)) by (apply Z.div_pos; lia).
    rewrite Hsucc.
    destruct (Z.eqb_spec ((day + 1) mod (7 * N)) 0) as [Hz|Hz]; simpl.
    + destruct (Z.eqb_spec (day / (7 * N)) (day / (7 * N) + 1)); [lia|].
      simpl. symmetry. apply Z.leb_le. lia.
    + by rewrite Z.eqb_refl.
  - destruct (Z.ltb_spec day (k N * 7 * N)) as [H2|H2].
    + replace (day + 1 - k N * 7 * N) with 0 by lia.
      rewrite !Zdiv_0_l, !Zmod_0_l. simpl.
      assert (day / (7 * N) = k N - 1) as ->.
      { symmetry. apply Z.div_unique with (r := 7 * N - 1); lia. }
      destruct (Z.eqb_spec (k N - 1) 0), (Z.leb_spec 2 (k N)); simpl; lia.
    + replace (day + 1 - k N * 7 * N) with (day - k N * 7 * N + 1) by lia.
      set (t := day - k N * 7 * N). assert (0 <= t) by lia.
      pose proof (div_succ t (3 * N) ltac:(lia) ltac:(lia)) as Hsucc.
      assert (0 <= t / (3 * N)) by (apply Z.div_pos; lia).
      rewrite Hsucc.
      destruct (Z.eqb_spec ((t + 1) mod (3 * N)) 0) as [Hz|Hz]; simpl.
      * destruct (Z.leb_spec 2 (k N)) as [HK2|HK2]; simpl.
        -- pose proof (mod_succ_ne (t / (3 * N)) (k N) ltac:(lia) HK2).
           destruct (Z.eqb_spec ((t / (3 * N)) mod k N)
                                ((t / (3 * N) + 1) mod k N));
             simpl; congruence.
        -- assert (k N = 1) as -> by lia. by rewrite !Z.mod_1_r.
      * by rewrite Z.eqb_refl.
Qed.

End Blocks.

(** X10.  For [N >= 2] prisoners within the 32-bit assumption, on every
    day [day >= 0] the stage index is defined and lies in [0 .. k-1], and
    the exchange rate [1 << stage] is a power of two that is at least 1
    and less than the number of prisoners: the shift never overflows. *)
Theorem exchange_rate_in_range (N day : Z) (p : t) :
  2 <= N -> small N ->
  n_prisoners p = N ->
  0 <= day <= Int32.max_signed ->
  exists stage_index,
    GetStageIndex p day = Some stage_index /\
    0 <= stage_index < GetClosestNotSmallerPowerOf2 N /\
    Int32.shl 1 stage_index = 2 ^ stage_index /\
    1 <= Int32.shl 1 stage_index < N.
Proof.
  intros HN Hsmall Hp Hday. exists (stage N day).
  pose proof (stage_range N HN day ltac:(lia)) as Hs.
  pose proof (pow_stage_bounds N HN Hsmall day ltac:(lia)) as Hrate.
  split; [by apply GetStageIndex_stage|]. split; [done|].
  rewrite (shl_stage N HN Hsmall) by lia. split; [done|].
  split; [lia|].
  destruct (Z.log2_up_spec N ltac:(lia)) as [Hlo _]. fold (k N) in Hlo.
  assert (2 ^ stage N day <= 2 ^ Z.pred (k N))
    by (apply Z.pow_le_mono_r; lia).
  lia.
Qed.

(** X11.  The first cycle: for [N >= 2] within the 32-bit assumption and
    every stage [j] of [0 .. k-1], the stage index is [j] on each of the
    [7*N] days from [j*7*N] on. *)
Theorem first_cycle_blocks (N j day : Z) (p : t) :
  2 <= N -> small N ->
  n_prisoners p = N ->
  0 <= j < TokenSpec.k N ->
  j * (7 * N) <= day < (j + 1) * (7 * N) ->
  GetStageIndex p day = Some j.
Proof.
  intros HN Hsmall Hp Hj Hday.
  rewrite (GetStageIndex_stage N HN Hsmall p day Hp).
  - by rewrite (stage_first_cycle N HN j day Hj Hday).
  - unfold small in Hsmall. nia.
Qed.

(** X12.  The next cycles: for [N >= 2] within the 32-bit assumption,
    after the [k*7*N] days of the first cycle the stages [0 .. k-1] repeat
    in blocks of [3*N] days: in cycle [c >= 0] the stage index is [j] on
    each of the [3*N] days from [k*7*N + (c*k + j)*3*N] on. *)
Theorem next_cycles_blocks (N c j day : Z) (p : t) :
  2 <= N -> small N ->
  n_prisoners p = N ->
  0 <= c -> 0 <= j < TokenSpec.k N ->
  TokenSpec.k N * 7 * N + (c * TokenSpec.k N + j) * (3 * N) <= day
    < TokenSpec.k N * 7 * N + (c * TokenSpec.k N + j + 1) * (3 * N) ->
  day <= Int32.max_signed ->
  GetStageIndex p day = Some j.
Proof.
  intros HN Hsmall Hp Hc Hj Hday Hmax.
  rewrite (GetStageIndex_stage N HN Hsmall p day Hp).
  - by rewrite (stage_next_cycles N HN c j day Hc Hj Hday).
  - pose proof (k_pos N HN). nia.
Qed.

(** X13.  For [N >= 2] within the 32-bit assumption, a day is the last day
    of its stage exactly when a block starts on the next day and there are
    at least two stages; with a single stage ([N = 2]) no day ever is. *)
Theorem last_day_is_block_end (N day : Z) (p : t) :
  2 <= N -> small N ->
  n_prisoners p = N ->
  0 <= day < Int32.max_signed ->
  IsLastDayOfTheStage p day
  = Some (block_start N (day + 1) && (2 <=? TokenSpec.k N)).
Proof.
  intros HN Hsmall Hp Hday.
  rewrite (IsLastDayOfTheStage_last N HN Hsmall p day Hp Hday).
  by rewrite (last_day_block_start N HN day) by lia.
Qed.

End TokenSchedule.

(** ** Test *)

Module TestRuns.



Lemma token_single_Run (d : Z) (draws : list Z) :
  Prison.Run (d :: draws) (Prison.make (P:=TokenPrisoner.t) 1)
  = UndefinedBehaviour.
Proof.
  simpl. unfold Prison.NextDay.
  destruct (d <? 0); [done|].
  destruct (Z.to_nat d) as [|i]; [done|]. simpl. by destruct i.
Qed.

(** X15.  [Test<TokenPrisoner>] never gets past its first run: with one
    prisoner the first visit is undefined whoever is drawn, so the test
    ends in the run of [n_prisoners = 1], on undefined behaviour as soon
    as there is a first draw. *)
Theorem Test_token_stops_at_one (draws_of : Z -> list Z) :
  Test (P:=TokenPrisoner.t) draws_of
  = Some (1, match draws_of 1 with
             | [] => StillRunning
             | _ :: _ => UndefinedBehaviour
             end).
Proof.
  unfold Test. change (seqZ 1 100) with (1 :: seqZ 2 99).
  unfold Test_loop.
  destruct (draws_of 1) as [|d draws]; [done|].
  by rewrite token_single_Run.
Qed.

End TestRuns.

(** Witness of X7: three token prisoners, four days. *)
Lemma token_never_claims_falsely_witness :
  Prison.Run [0; 1; 2; 0] (Prison.make (P:=TokenPrisoner.t) 3) = StillRunning \/
  exists r,
    Prison.Run [0; 1; 2; 0] (Prison.make (P:=TokenPrisoner.t) 3) = Returned r.
Proof.
  apply (TokenRuns.token_never_claims_falsely 3 [0; 1; 2; 0]).
  - lia.
  - by vm_compute.
  - unfold Int32.max_signed. simpl. lia.
  - repeat constructor; lia.
Defined.

(** Witness of X8: of two token prisoners, the second has both tokens
    after two days. *)
Lemma token_full_holder_has_all_witness :
  is_on (mkLight false) = false /\
  forall j q,
    j <> 1%nat ->
    [TokenPrisoner.mk 0 2 0; TokenPrisoner.mk 1 2 2] !! j = Some q ->
    TokenPrisoner.n_tokens q = 0.
Proof.
  refine ((TokenRuns.token_full_holder_has_all 2 [0; 1]
            {| Prison.n_prisoners := 2;
               Prison.day_number := 2;
               Prison.light := mkLight false;
               Prison.prisoners :=
                 [TokenPrisoner.mk 0 2 0; TokenPrisoner.mk 1 2 2];
               Prison.prisoners_have_been_in_the_room_indicators :=
                 [true; true] |}
            1%nat (TokenPrisoner.mk 1 2 2) _ _ _ _ _ _)).
  - lia.
  - by vm_compute.
  - unfold Int32.max_signed. simpl. lia.
  - apply list_elem_of_further, list_elem_of_further, list_elem_of_here.
  - reflexivity.
  - reflexivity.
Defined.

(** Witness of X9: three token prisoners after three visits; the second
    has given its token to the light and the third has taken it. *)
Lemma token_counts_bounded_witness :
  Execution.after [0; 1; 2] (Prison.make (P:=TokenPrisoner.t) 3)
  = Some {| Prison.n_prisoners := 3;
            Prison.day_number := 3;
            Prison.light := mkLight false;
            Prison.prisoners :=
              [TokenPrisoner.mk 0 3 2; TokenPrisoner.mk 1 3 0;
               TokenPrisoner.mk 2 3 2];
            Prison.prisoners_have_been_in_the_room_indicators :=
              [true; true; true] |} /\
  0 <= TokenPrisoner.n_tokens (TokenPrisoner.mk 1 3 0) <= 2 ^ TokenSpec.k 3 /\
  0 <= TokenPrisoner.n_tokens (TokenPrisoner.mk 2 3 2) <= 2 ^ TokenSpec.k 3.
Proof.
  split; [reflexivity|].
  assert ({| Prison.n_prisoners := 3;
             Prison.day_number := 3;
             Prison.light := mkLight false;
             Prison.prisoners :=
               [TokenPrisoner.mk 0 3 2; TokenPrisoner.mk 1 3 0;
                TokenPrisoner.mk 2 3 2];
             Prison.prisoners_have_been_in_the_room_indicators :=
               [true; true; true] |}
          ∈ Execution.trace [0; 1; 2] (Prison.make (P:=TokenPrisoner.t) 3))
    as Hst.
  { apply list_elem_of_further, list_elem_of_further, list_elem_of_further,
      list_elem_of_here. }
  assert (Z.of_nat (length [0; 1; 2]) <= Int32.max_signed) as Hlen
    by (unfold Int32.max_signed; simpl; lia).
  assert (TokenSpec.small 3) as Hsmall by (by vm_compute).
  split.
  - exact (proj1 (proj2 (TokenRuns.token_counts_bounded 3 [0; 1; 2] _ 1%nat
             (TokenPrisoner.mk 1 3 0) ltac:(lia) Hsmall Hlen Hst eq_refl))).
  - exact (proj1 (proj2 (TokenRuns.token_counts_bounded 3 [0; 1; 2] _ 2%nat
             (TokenPrisoner.mk 2 3 2) ltac:(lia) Hsmall Hlen Hst eq_refl))).
Defined.

(** Witness of X10: three prisoners, day 25. *)
Lemma exchange_rate_in_range_witness :
  exists stage_index,
    TokenPrisoner.GetStageIndex (TokenPrisoner.make 0 3) 25 = Some stage_index /\
    1 <= Int32.shl 1 stage_index < 3.
Proof.
  destruct (TokenSchedule.exchange_rate_in_range 3 25 (TokenPrisoner.make 0 3))
    as (stage_index & Hstage & _ & _ & Hrate).
  - lia.
  - by vm_compute.
  - reflexivity.
  - unfold Int32.max_signed. lia.
  - by exists stage_index.
Defined.

(** Witness of X11: three prisoners, day 25 lies in the block of stage 1. *)
Lemma first_cycle_blocks_witness :
  TokenPrisoner.GetStageIndex (TokenPrisoner.make 0 3) 25 = Some 1.
Proof.
  apply (TokenSchedule.first_cycle_blocks 3 1 25 (TokenPrisoner.make 0 3)).
  - lia.
  - by vm_compute.
  - reflexivity.
  - by vm_compute.
  - lia.
Defined.

(** Witness of X12: three prisoners, day 70 lies in the block of stage 1 of
    the second of the next cycles. *)
Lemma next_cycles_blocks_witness :
  TokenPrisoner.GetStageIndex (TokenPrisoner.make 0 3) 70 = Some 1.
Proof.
  apply (TokenSchedule.next_cycles_blocks 3 1 1 70 (TokenPrisoner.make 0 3)).
  - lia.
  - by vm_compute.
  - reflexivity.
  - lia.
  - by vm_compute.
  - by vm_compute.
  - unfold Int32.max_signed. lia.
Defined.

(** Witness of X13: three prisoners, day 41 is the last day of the first
    cycle. *)
Lemma last_day_is_block_end_witness :
  TokenPrisoner.IsLastDayOfTheStage (TokenPrisoner.make 0 3) 41 = Some true.
Proof.
  apply (TokenSchedule.last_day_is_block_end 3 41 (TokenPrisoner.make 0 3)).
  - lia.
  - by vm_compute.
  - reflexivity.
  - unfold Int32.max_signed. lia.
Defined.


(** Witness of C6: the prisoner of a prison of one, as built, on day 0 with
    the light off. *)
Lemma TakeAction_single_prisoner_witness :
  TokenPrisoner.TakeAction (TokenPrisoner.make 0 1) (mkInput 0 (mkLight false))
  = None /\
  TokenPrisoner.ShouldClaimThatEveryoneHasBeenInTheRoom (TokenPrisoner.make 0 1)
  = true.
Proof.
  destruct (TokenProofs.TakeAction_single_prisoner (TokenPrisoner.make 0 1) 0
              (mkLight false))
    as (_ & _ & Hact & Hclaim).
  - reflexivity.
  - unfold Int32.max_signed. lia.
  - split; [exact Hact | exact (proj2 (Hclaim eq_refl))].
Defined.
